(** * genrl: the UCB contextual-bandit policy, the value-network builder
      and the A2C update step, embedded and verified

    Sources covered:
    - [genrl/classical/bandit/contextual_policies/ucb.py]  ([Module UCB])
    - [genrl/deep/common/values.py]         ([Module Values], [Module ValuesMore])
    - [genrl/deep/agents/a2c/a2c.py]        ([Module A2C], [Module A2CMore])

    Numbers.  The program computes with IEEE doubles (numpy) and float
    tensors (torch).  They are idealised here as the real numbers [R] of
    the Standard Library, with [sqrt], [ln] and [exp] for [np.sqrt],
    [np.log] and [torch.exp]; rounding is outside the model, so a theorem
    here speaks of the scores as real numbers, not of their doubles.
    [np.log] is applied to the Python integer [t + 1]: it raises
    [TypeError] when the integer fits no 64-bit type and gives [-inf] or
    NaN when it is not positive ([np_log]); [select_action] models both.
    The mean of an empty tensor is NaN in torch; the theorems about the
    A2C losses carry the hypothesis that the minibatch is not empty.

    Effects.  Methods mutate [self] and may raise.  A method is a function
    from the state before the call to an [outcome]: the returned value and
    the state after the call, or the exception together with the state as
    the mutations made before the raise left it. *)

From Stdlib Require Import Reals Lra ZArith Lia.
From stdpp Require Import base list strings gmap.

Open Scope R_scope.

(** ** Exceptions and the state-and-exception monad *)

Inductive exn : Type :=
| IndexError
| ValueError
| KeyError
| TypeError
| RuntimeError.

Inductive outcome (S A : Type) : Type :=
| Ok (a : A) (s : S)
| Raise (e : exn) (s : S).

Arguments Ok {S A} a s.
Arguments Raise {S A} e s.

Definition M (S A : Type) : Type := S -> outcome S A.

Definition ret {S A} (a : A) : M S A := fun s => Ok a s.

Definition bind {S A B} (m : M S A) (k : A -> M S B) : M S B :=
  fun s => match m s with
           | Ok a s' => k a s'
           | Raise e s' => Raise e s'
           end.

Definition raise {S A} (e : exn) : M S A := fun s => Raise e s.

Definition gets {S A} (f : S -> A) : M S A := fun s => Ok (f s) s.

Definition modify {S} (f : S -> S) : M S unit := fun s => Ok tt (f s).

(** [or_raise e o]: the value of [o], or the exception [e] when the
    Python operation that [o] models fails. *)
Definition or_raise {S A} (e : exn) (o : option A) : M S A :=
  match o with
  | Some a => ret a
  | None => raise e
  end.

Declare Scope py_scope.
Delimit Scope py_scope with py.
Notation "'let*' x ':=' m 'in' k" := (bind m (fun x => k))
  (at level 10, x name, m at level 200, k at level 200,
   format "'[v' 'let*'  x  ':='  m  'in' '/' k ']'") : py_scope.
Open Scope py_scope.

(** The state a call leaves behind, whether it returned or raised. *)
Definition state_of {S A} (o : outcome S A) : S :=
  match o with
  | Ok _ s => s
  | Raise _ s => s
  end.

(** ** Sequences, numpy indexing and the numpy calls of [ucb.py] *)

(** An index into an axis of length [n]: [0 <= i < n] addresses entry
    [i], [-n <= i < 0] addresses entry [n + i], anything else is an
    [IndexError]. *)
Definition np_index (n : nat) (i : Z) : option nat :=
  if ((0 <=? i) && (i <? Z.of_nat n))%Z then Some (Z.to_nat i)
  else if ((- Z.of_nat n <=? i) && (i <? 0))%Z then Some (Z.to_nat (Z.of_nat n + i))
  else None.

(** [xs[i]] *)
Definition getitem {A} (xs : list A) (i : Z) : option A :=
  match np_index (length xs) i with
  | Some j => xs !! j
  | None => None
  end.

(** [xs[i] = v] *)
Definition setitem {A} (xs : list A) (i : Z) (v : A) : option (list A) :=
  match np_index (length xs) i with
  | Some j => Some (<[j := v]> xs)
  | None => None
  end.

(** A two-dimensional array is the list of its rows; [arr[i, j]]. *)
Definition getitem2 {A} (arr : list (list A)) (i j : Z) : option A :=
  match getitem arr i with
  | Some row => getitem row j
  | None => None
  end.

(** [arr[i, j] = v] *)
Definition setitem2 {A} (arr : list (list A)) (i j : Z) (v : A)
  : option (list (list A)) :=
  match getitem arr i with
  | Some row =>
      match setitem row j v with
      | Some row' => setitem arr i row'
      | None => None
      end
  | None => None
  end.

(** [np.zeros(shape=(rows, cols))] *)
Definition np_zeros (rows cols : nat) : list (list R) :=
  replicate rows (replicate cols 0).

(** Elementwise binary operation on one-dimensional arrays, with numpy's
    broadcasting of an operand of length one; other length mismatches
    fail. *)
Definition broadcast2 (f : R -> R -> R) (xs ys : list R) : option (list R) :=
  if (length xs =? length ys)%nat then Some (zip_with f xs ys)
  else match xs, ys with
       | [x], _ => Some (map (f x) ys)
       | _, [y] => Some (map (fun x => f x y) xs)
       | _, _ => None
       end.

(** The scan behind [np.argmax] and the builtin [max]: the running best
    is replaced only by a strictly greater entry, so the first of several
    greatest entries wins. *)
Fixpoint argmax_from (best_i : nat) (best : R) (i : nat) (xs : list R) : nat * R :=
  match xs with
  | [] => (best_i, best)
  | x :: xs' =>
      if Rlt_dec best x then argmax_from i x (S i) xs'
      else argmax_from best_i best (S i) xs'
  end.

(** [np.argmax(xs)]; an empty array is a [ValueError]. *)
Definition np_argmax (xs : list R) : option nat :=
  match xs with
  | [] => None
  | x :: xs' => Some (fst (argmax_from 0 x 1 xs'))
  end.

(** [max(xs)]; an empty sequence is a [ValueError]. *)
Definition py_max (xs : list R) : option R :=
  match xs with
  | [] => None
  | x :: xs' => Some (snd (argmax_from 0 x 1 xs'))
  end.

(** What [np.log(n)] gives for a Python [int] [n].  numpy converts the
    argument to a 64-bit integer first, signed or unsigned: an [int]
    outside [-2**63 .. 2**64 - 1] has no such conversion and the call
    raises [TypeError].  For [n <= 0] the result is [-inf] or [nan]
    (with a warning, not an exception); for [n >= 1] it is the
    logarithm. *)
Inductive log_value : Type :=
| Finite (l : R)
| NotFinite.

Definition np_log (n : Z) : option log_value :=
  if ((n <? - 2 ^ 63) || (2 ^ 64 <=? n))%Z then None
  else if (n <=? 0)%Z then Some NotFinite
  else Some (Finite (ln (IZR n))).

(** [np.argmax] of an array all of whose entries are [nan], whatever they
    stand for here: the first index; an empty array is a [ValueError]. *)
Definition np_argmax_nan {A} (xs : list A) : option nat :=
  match xs with
  | [] => None
  | _ :: _ => Some 0%nat
  end.

(** * The UCB contextual-bandit policy ([ucb.py]) *)

Module UCB.

(** The fields of a [UCBCBPolicy] object.  [_c], [_quality] and [_counts]
    are set by [UCBCBPolicy.__init__]; the others belong to the base class
    [CBPolicy]. *)
Record UCBCBPolicy : Type := mkUCBCBPolicy {
  _c : R;
  _quality : list (list R);
  _counts : list (list R);
  _regret : R;
  _action_hist : list (Z * nat);
  _reward_hist : list R;
  _regret_hist : list R
}.

Definition set_quality (q : list (list R)) (s : UCBCBPolicy) : UCBCBPolicy :=
  mkUCBCBPolicy (_c s) q (_counts s) (_regret s)
                (_action_hist s) (_reward_hist s) (_regret_hist s).

Definition set_counts (n : list (list R)) (s : UCBCBPolicy) : UCBCBPolicy :=
  mkUCBCBPolicy (_c s) (_quality s) n (_regret s)
                (_action_hist s) (_reward_hist s) (_regret_hist s).

Definition set_regret (r : R) (s : UCBCBPolicy) : UCBCBPolicy :=
  mkUCBCBPolicy (_c s) (_quality s) (_counts s) r
                (_action_hist s) (_reward_hist s) (_regret_hist s).

Definition set_action_hist (h : list (Z * nat)) (s : UCBCBPolicy) : UCBCBPolicy :=
  mkUCBCBPolicy (_c s) (_quality s) (_counts s) (_regret s)
                h (_reward_hist s) (_regret_hist s).

Definition set_reward_hist (h : list R) (s : UCBCBPolicy) : UCBCBPolicy :=
  mkUCBCBPolicy (_c s) (_quality s) (_counts s) (_regret s)
                (_action_hist s) h (_regret_hist s).

Definition set_regret_hist (h : list R) (s : UCBCBPolicy) : UCBCBPolicy :=
  mkUCBCBPolicy (_c s) (_quality s) (_counts s) (_regret s)
                (_action_hist s) (_reward_hist s) h.

(** Modelled from the spec: the constructor of the base class [CBPolicy]
    (contextual_policies/base.py is not among the sources).  It leaves the
    three histories empty ("append-only ordered sequence ... one per
    call") and the cumulative regret at zero (the scenario of section 8
    ends with regret 1.0 after regret deltas 0 and 1). *)
Definition CBPolicy_init (s : UCBCBPolicy) : UCBCBPolicy :=
  set_regret_hist [] (set_reward_hist [] (set_action_hist [] (set_regret 0 s))).

(** [UCBCBPolicy.__init__(bandit, confidence)], where [bandits] and [arms]
    are [bandit.bandits] and [bandit.arms]. *)
Definition __init__ (bandits arms : nat) (confidence : R) : UCBCBPolicy :=
  let self := CBPolicy_init (mkUCBCBPolicy 0 [] [] 0 [] [] []) in
  let self := mkUCBCBPolicy confidence (_quality self) (_counts self) (_regret self)
                (_action_hist self) (_reward_hist self) (_regret_hist self) in
  let self := set_quality (np_zeros bandits arms) self in
  let self := set_counts (np_zeros bandits arms) self in
  self.

Abbreviation Method := (M UCBCBPolicy).

(** The properties [confidence] and [quality] of the class, and [counts]
    and [regret], which the base class declares the same way: each
    returns the field. *)
Definition confidence : Method R := gets _c.
Definition quality : Method (list (list R)) := gets _quality.
Definition counts : Method (list (list R)) := gets _counts.
Definition regret : Method R := gets _regret.

(** [self.action_hist.append(x)], [self.reward_hist.append(x)],
    [self.regret_hist.append(x)] *)
Definition action_hist_append (x : Z * nat) : Method unit :=
  modify (fun s => set_action_hist (_action_hist s ++ [x]) s).
Definition reward_hist_append (x : R) : Method unit :=
  modify (fun s => set_reward_hist (_reward_hist s ++ [x]) s).
Definition regret_hist_append (x : R) : Method unit :=
  modify (fun s => set_regret_hist (_regret_hist s ++ [x]) s).

(** [UCBCBPolicy.select_action(context, t)]:
<<
    action = np.argmax(
        self.quality[context]
        + self.confidence * np.sqrt(2 * np.log(t + 1) / (self.counts[context] + 1))
    )
    self.action_hist.append((context, action))
    return action
>> *)
Definition select_action (context t : Z) : Method nat :=
  let* q := quality in
  let* q_row := or_raise IndexError (getitem q context) in
  let* c := confidence in
  let* log_t := or_raise TypeError (np_log (t + 1)) in
  let* n := counts in
  let* n_row := or_raise IndexError (getitem n context) in
  let* action :=
    match log_t with
    | Finite l =>
        let bonus := map (fun x => c * x)
                       (map sqrt
                          (map (fun d => 2 * l / d)
                             (map (fun x => x + 1) n_row))) in
        let* score := or_raise ValueError (broadcast2 Rplus q_row bonus) in
        or_raise ValueError (np_argmax score)
    | NotFinite =>
        (* 2 * log / (counts + 1) is -inf or nan, its square root nan, and
           so is every score (for counts >= 0, as the invariant has them) *)
        let* score := or_raise ValueError (broadcast2 Rplus q_row n_row) in
        or_raise ValueError (np_argmax_nan score)
    end in
  let* _ := action_hist_append (context, action) in
  ret action.

(** [UCBCBPolicy.update_params(context, action, reward)]:
<<
    self.reward_hist.append(reward)
    self._regret += max(self.quality[context]) - self.quality[context, action]
    self.regret_hist.append(self.regret)
    self.quality[context, action] += (reward - self.quality[context, action]) / (
        self.counts[context, action] + 1
    )
    self.counts[context, action] += 1
>> *)
Definition update_params (context action : Z) (reward : R) : Method unit :=
  let* _ := reward_hist_append reward in
  (* self._regret += max(self.quality[context]) - self.quality[context, action] *)
  let* old_regret := gets _regret in
  let* q := quality in
  let* q_row := or_raise IndexError (getitem q context) in
  let* best := or_raise ValueError (py_max q_row) in
  let* q := quality in
  let* q_ca := or_raise IndexError (getitem2 q context action) in
  let* _ := modify (set_regret (old_regret + (best - q_ca))) in
  (* self.regret_hist.append(self.regret) *)
  let* r := regret in
  let* _ := regret_hist_append r in
  (* self.quality[context, action] += (reward - ...) / (... + 1) *)
  let* q := quality in
  let* old_q := or_raise IndexError (getitem2 q context action) in
  let* q' := quality in
  let* q_ca := or_raise IndexError (getitem2 q' context action) in
  let* n := counts in
  let* n_ca := or_raise IndexError (getitem2 n context action) in
  let* q_new := or_raise IndexError
                  (setitem2 q context action (old_q + (reward - q_ca) / (n_ca + 1))) in
  let* _ := modify (set_quality q_new) in
  (* self.counts[context, action] += 1 *)
  let* n := counts in
  let* old_n := or_raise IndexError (getitem2 n context action) in
  let* n_new := or_raise IndexError (setitem2 n context action (old_n + 1)) in
  modify (set_counts n_new).

End UCB.

(** * The value-network builder ([values.py]) *)

Module Values.

(** What a call that touches no state gives back. *)
Inductive result (A : Type) : Type :=
| Returned (a : A)
| Raised (e : exn).

Arguments Returned {A} a.
Arguments Raised {A} e.

Section GetValModel.

(** The network type of the caller's architecture.  [arch] is the first
    argument of [_get_val_model] ([mlp] in both callers): it receives
    the list of layer widths and the activation name.  A width is a
    Python value that is an [int] or [None] ([action_dim] defaults to
    [None]), hence [option Z].  [arch] is taken to return: a call in which
    [arch] itself raises (the callers' [mlp] cannot build a layer of
    width [None]) is outside the model. *)
Variable Net : Type.
Variable arch : list (option Z) -> string -> Net.

(** [state_dim + action_dim]: adding [None] to an [int] is a
    [TypeError]. *)
Definition py_add (x : Z) (y : option Z) : option Z :=
  match y with
  | Some y => Some (x + y)%Z
  | None => None
  end.

(** [_get_val_model(arch, val_type, state_dim, hidden, action_dim, activation)]:
<<
  if val_type == "V":
      return arch([state_dim] + list(hidden) + [1], activation=activation)
  elif val_type == "Qsa":
      return arch(
          [state_dim + action_dim] + list(hidden) + [1], activation=activation
      )
  elif val_type == "Qs":
      return arch([state_dim] + list(hidden) + [action_dim], activation=activation)
  else:
      raise ValueError
>> *)
Definition _get_val_model (val_type : string) (state_dim : Z) (hidden : list Z)
    (action_dim : option Z) (activation : string) : result Net :=
  if String.eqb val_type "V" then
    Returned (arch ([Some state_dim] ++ map Some hidden ++ [Some 1%Z]) activation)
  else if String.eqb val_type "Qsa" then
    match py_add state_dim action_dim with
    | Some w =>
        Returned (arch ([Some w] ++ map Some hidden ++ [Some 1%Z]) activation)
    | None => Raised TypeError
    end
  else if String.eqb val_type "Qs" then
    Returned (arch ([Some state_dim] ++ map Some hidden ++ [action_dim]) activation)
  else
    Raised ValueError.

End GetValModel.

(** The widths of the first and of the last layer in a list of layer
    widths: what the network reads and what it produces. *)
Definition input_width (sizes : list (option Z)) : option Z :=
  match sizes with
  | [] => None
  | w :: _ => w
  end.

Definition output_width (sizes : list (option Z)) : option Z :=
  match last sizes with
  | Some w => w
  | None => None
  end.

(** The tags of the spec and their spelling in the code. *)
Inductive ValueKind : Type :=
| StateValue
| StateActionValue
| ActionValueVector.

Definition tag (k : ValueKind) : string :=
  match k with
  | StateValue => "V"
  | StateActionValue => "Qsa"
  | ActionValueVector => "Qs"
  end.

End Values.

(** * The A2C agent ([a2c.py]) *)

Module A2C.

(** ** Tensor operations

    A one-dimensional float tensor is the list of its entries.  The
    tensors of one minibatch (advantages, returns, values and
    log-probabilities) have the minibatch length as their only dimension;
    the theorems assume so, and elementwise operations are [zip_with].
    Tensors of different lengths, which torch broadcasts or refuses with
    a [RuntimeError], are outside the model: [zip_with] stands for the
    elementwise operation only on equal lengths. *)

(** [x.sum()] *)
Definition torch_sum (xs : list R) : R := foldr Rplus 0 xs.

(** [torch.mean(x)]; the mean of an empty tensor is NaN in torch and is
    outside the model. *)
Definition torch_mean (xs : list R) : R := torch_sum xs / INR (length xs).

(** [x * y] *)
Definition torch_mul (xs ys : list R) : list R := zip_with Rmult xs ys.

(** [torch.exp(x)] *)
Definition torch_exp (xs : list R) : list R := map exp xs.

(** [F.mse_loss(input, target)], mean reduction *)
Definition mse_loss (input target : list R) : R :=
  torch_mean (zip_with (fun x y => (x - y) * (x - y)) input target).

(** One minibatch as [RolloutBuffer.get] yields it. *)
Record RolloutBufferSamples (Obs Act : Type) : Type := mkSamples {
  observations : Obs;
  actions : Act;
  advantages : list R;
  returns : list R
}.

Arguments observations {Obs Act} _.
Arguments actions {Obs Act} _.
Arguments advantages {Obs Act} _.
Arguments returns {Obs Act} _.

Section Agent.

(** The collaborators of the agent, none of which is among the sources:
    observation and action tensors, the distribution object the actor
    returns, the parameters of the actor-critic module, the state of an
    Adam optimizer and the state of torch's random generator. *)
Variables Obs Act Dist Params Opt Rng : Type.

(** The actor's output distribution and the critic's values at a batch
    of observations. *)
Variable actor_forward : Params -> Obs -> Dist.
Variable critic_forward : Params -> Obs -> list R.

(** [dist.sample()], the deterministic choice of the actor and
    [dist.log_prob(action)]. *)
Variable dist_sample : Dist -> Rng -> Act * Rng.
Variable dist_mode : Dist -> Act.
Variable dist_log_prob : Dist -> Act -> list R.

(** [actions.long().flatten()] *)
Variable long_flatten : Act -> Act.

(** [zero_grad()], [loss.backward()], [clip_grad_norm_(parameters, 0.5)]
    and [step()] as one update of the parameters and of the optimizer
    state, for the actor's and for the critic's parameters.  The graph
    behind a loss tensor is not modelled: the update is given the value
    of the loss and is otherwise uninterpreted. *)
Variable step_policy : R -> Params * Opt -> Params * Opt.
Variable step_value : R -> Params * Opt -> Params * Opt.

Record A2C : Type := mkA2C {
  ac : Params;
  optimizer_policy : Opt;
  optimizer_value : Opt;
  value_coeff : R;
  entropy_coeff : R;
  discrete : bool;          (* isinstance(env.action_space, Discrete) *)
  logs : gmap string (list R);
  rng : Rng
}.

Definition set_rng (g : Rng) (s : A2C) : A2C :=
  mkA2C (ac s) (optimizer_policy s) (optimizer_value s) (value_coeff s)
        (entropy_coeff s) (discrete s) (logs s) g.

Definition set_logs (l : gmap string (list R)) (s : A2C) : A2C :=
  mkA2C (ac s) (optimizer_policy s) (optimizer_value s) (value_coeff s)
        (entropy_coeff s) (discrete s) l (rng s).

Definition set_policy (p : Params * Opt) (s : A2C) : A2C :=
  mkA2C (fst p) (snd p) (optimizer_value s) (value_coeff s)
        (entropy_coeff s) (discrete s) (logs s) (rng s).

Definition set_value (p : Params * Opt) (s : A2C) : A2C :=
  mkA2C (fst p) (optimizer_policy s) (snd p) (value_coeff s)
        (entropy_coeff s) (discrete s) (logs s) (rng s).

Abbreviation Method := (M A2C).

(** Modelled from the spec: [self.ac.get_action(state, deterministic)]
    of the actor-critic module (genrl/deep/common is not among the
    sources): "samples (or takes deterministic mode of) an action from
    the actor's output distribution" and returns
    "(action, distribution)".  Sampling advances the generator. *)
Definition ac_get_action (state : Obs) (deterministic : bool) : Method (Act * Dist) :=
  let* params := gets ac in
  let dist := actor_forward params state in
  if deterministic then ret (dist_mode dist, dist)
  else
    let* g := gets rng in
    let* _ := modify (set_rng (snd (dist_sample dist g))) in
    ret (fst (dist_sample dist g), dist).

(** Modelled from the spec: [self.ac.get_value(state)], "the critic's
    value estimate at the same state". *)
Definition ac_get_value (state : Obs) : Method (list R) :=
  let* params := gets ac in
  ret (critic_forward params state).

(** [A2C.select_action(state, deterministic)]; [state] is the tensor
    [torch.as_tensor(state).float().to(self.device)]:
<<
  action, dist = self.ac.get_action(state, deterministic=False)
  value = self.ac.get_value(state)
  return action.detach().cpu().numpy(), value, dist.log_prob(action).cpu()
>> *)
Definition select_action (state : Obs) (deterministic : bool)
  : Method (Act * list R * list R) :=
  let* ad := ac_get_action state false in
  let* value := ac_get_value state in
  ret (fst ad, value, dist_log_prob (snd ad) (fst ad)).

(** [A2C.get_value_log_probs(state, action)]:
<<
  _, dist = self.ac.get_action(state, deterministic=False)
  value = self.ac.get_value(state)
  return value, dist.log_prob(action).cpu()
>> *)
Definition get_value_log_probs (state : Obs) (action : Act)
  : Method (list R * list R) :=
  let* ad := ac_get_action state false in
  let* value := ac_get_value state in
  ret (value, dist_log_prob (snd ad) action).

(** [self.logs[key].append(x)]; a missing key is a [KeyError]. *)
Definition logs_append (key : string) (x : R) : Method unit :=
  let* l := gets logs in
  let* entry := or_raise KeyError (l !! key) in
  modify (set_logs (<[key := entry ++ [x]]> l)).

(** The body of the loop of [A2C.update_policy], for one minibatch:
<<
  actions = rollout.actions
  if isinstance(self.env.action_space, gym.spaces.Discrete):
      actions = actions.long().flatten()
  values, log_prob = self.get_value_log_probs(rollout.observations, actions)
  policy_loss = rollout.advantages * log_prob
  policy_loss = -torch.mean(policy_loss)
  self.logs["policy_loss"].append(policy_loss.item())
  value_loss = self.value_coeff * F.mse_loss(rollout.returns, values.cpu())
  self.logs["value_loss"].append(torch.mean(value_loss).item())
  entropy_loss = (torch.exp(log_prob) * log_prob).sum()
  self.logs["policy_entropy"].append(entropy_loss.item())
  actor_loss = policy_loss + self.entropy_coeff * entropy_loss
  (optimizer_policy: zero_grad, actor_loss.backward, clip, step)
  (optimizer_value: zero_grad, value_loss.backward, clip, step)
>> *)
Definition update_minibatch (rollout : RolloutBufferSamples Obs Act) : Method unit :=
  let acts := actions rollout in
  let* is_discrete := gets discrete in
  let acts := if is_discrete then long_flatten acts else acts in
  let* vl := get_value_log_probs (observations rollout) acts in
  let values := fst vl in
  let log_prob := snd vl in
  let policy_loss := torch_mul (advantages rollout) log_prob in
  let policy_loss := - torch_mean policy_loss in
  let* _ := logs_append "policy_loss" policy_loss in
  let* vc := gets value_coeff in
  let value_loss := vc * mse_loss (returns rollout) values in
  let* _ := logs_append "value_loss" (torch_mean [value_loss]) in
  let entropy_loss := torch_sum (torch_mul (torch_exp log_prob) log_prob) in
  let* _ := logs_append "policy_entropy" entropy_loss in
  let* ec := gets entropy_coeff in
  let actor_loss := policy_loss + ec * entropy_loss in
  let* _ := modify (fun s => set_policy (step_policy actor_loss (ac s, optimizer_policy s)) s) in
  modify (fun s => set_value (step_value value_loss (ac s, optimizer_value s)) s).

(** [A2C.update_policy()], over the minibatches that
    [self.rollout.get(self.batch_size)] yields. *)
Fixpoint update_policy (minibatches : list (RolloutBufferSamples Obs Act)) : Method unit :=
  match minibatches with
  | [] => ret tt
  | rollout :: rest =>
      let* _ := update_minibatch rollout in
      update_policy rest
  end.

(** [A2C.empty_logs()] (the [rewards] list it also clears is not
    modelled). *)
Definition empty_logs : Method unit :=
  modify (set_logs (<["policy_entropy" := []]>
                     (<["value_loss" := []]>
                       (<["policy_loss" := []]> ∅)))).

End Agent.

End A2C.

(** * Specification-side notions for the UCB policy *)

Module UCBSpec.

Import UCB.

(** [arr] has shape [(rows, cols)]. *)
Definition shaped (rows cols : nat) (arr : list (list R)) : Prop :=
  length arr = rows /\ Forall (fun row => length row = cols) arr.

(** Entry [(i, j)] of a two-dimensional array, [0] outside its shape. *)
Definition entry (arr : list (list R)) (i j : nat) : R :=
  match arr !! i with
  | Some row => default 0 (row !! j)
  | None => 0
  end.

(** The state invariant of a policy for [bandits] contexts and [arms]
    actions: both arrays keep the shape given at construction and no count
    is negative. *)
Definition wf (bandits arms : nat) (s : UCBCBPolicy) : Prop :=
  shaped bandits arms (_quality s) /\
  shaped bandits arms (_counts s) /\
  Forall (Forall (fun n => 0 <= n)) (_counts s).

(** The score of action [a] in context [c] at timestep [t], as the spec
    writes it:
    [quality[c,a] + confidence * sqrt(2 * ln(t+1) / (counts[c,a] + 1))]. *)
Definition score (s : UCBCBPolicy) (c : nat) (t : Z) (a : nat) : R :=
  entry (_quality s) c a
  + _c s * sqrt (2 * ln (IZR t + 1) / (entry (_counts s) c a + 1)).

(** [m] is the greatest entry of [row]. *)
Definition is_max (m : R) (row : list R) : Prop :=
  m ∈ row /\ forall x, x ∈ row -> x <= m.

(** [arr] with entry [(i, j)] replaced by [v]. *)
Definition update2 (arr : list (list R)) (i j : nat) (v : R) : list (list R) :=
  alter (fun row => <[j := v]> row) i arr.

(** The state [update_params] leaves when both indices are inside the
    shape: [i] and [j] are the row and column addressed, [m] the greatest
    quality of the row before the call. *)
Definition updated (s : UCBCBPolicy) (i j : nat) (m reward : R) : UCBCBPolicy :=
  let q := entry (_quality s) i j in
  let n := entry (_counts s) i j in
  mkUCBCBPolicy
    (_c s)
    (update2 (_quality s) i j (q + (reward - q) / (n + 1)))
    (update2 (_counts s) i j (n + 1))
    (_regret s + (m - q))
    (_action_hist s)
    (_reward_hist s ++ [reward])
    (_regret_hist s ++ [_regret s + (m - q)]).

(** A client of the policy: any sequence of calls, each of which either
    returns or raises; the client goes on with the object as the call
    left it. *)
Inductive call : Type :=
| SelectAction (context t : Z)
| UpdateParams (context action : Z) (reward : R).

Definition exec (k : call) (s : UCBCBPolicy) : UCBCBPolicy :=
  match k with
  | SelectAction context t => state_of (select_action context t s)
  | UpdateParams context action reward => state_of (update_params context action reward s)
  end.

Definition run (calls : list call) (s : UCBCBPolicy) : UCBCBPolicy :=
  foldl (fun s k => exec k s) s calls.

(** The rewards, in order, of the calls of [update_params] that address
    entry [(c, a)] of arrays of shape [(bandits, arms)]. *)
Definition addresses (bandits arms c a : nat) (context action : Z) : bool :=
  bool_decide (np_index bandits context = Some c /\ np_index arms action = Some a).

Fixpoint rewards_at (bandits arms c a : nat) (calls : list call) : list R :=
  match calls with
  | [] => []
  | UpdateParams context action reward :: rest =>
      if addresses bandits arms c a context action
      then reward :: rewards_at bandits arms c a rest
      else rewards_at bandits arms c a rest
  | SelectAction _ _ :: rest => rewards_at bandits arms c a rest
  end.

(** Sum and arithmetic mean of a sequence of rewards. *)
Definition total (rs : list R) : R := foldr Rplus 0 rs.
Definition mean (rs : list R) : R := total rs / INR (length rs).

(** [xs] never decreases from one position to a later one. *)
Definition non_decreasing (xs : list R) : Prop :=
  forall i j x y, (i <= j)%nat -> xs !! i = Some x -> xs !! j = Some y -> x <= y.

(** The regret history is non-decreasing and bounded by the current
    regret. *)
Definition regret_ordered (s : UCBCBPolicy) : Prop :=
  non_decreasing (_regret_hist s) /\
  forall x, x ∈ _regret_hist s -> x <= _regret s.

End UCBSpec.


(** * Specification-side notions for the A2C losses *)

Module A2CSpec.

(** [big_sum n f] is [f 0 + ... + f (n-1)]. *)
Fixpoint big_sum (n : nat) (f : nat -> R) : R :=
  match n with
  | O => 0
  | S k => big_sum k f + f k
  end.

(** Entry [i] of a tensor. *)
Definition at_ (xs : list R) (i : nat) : R := default 0 (xs !! i).

(** [-mean(advantage * log_prob)] over a minibatch of [length advantage]
    samples. *)
Definition policy_loss (advantage log_prob : list R) : R :=
  - (big_sum (length advantage) (fun i => at_ advantage i * at_ log_prob i)
     / INR (length advantage)).

(** [meanSquaredError(return, value)] *)
Definition mean_squared_error (ret value : list R) : R :=
  big_sum (length ret) (fun i => (at_ ret i - at_ value i) ^ 2) / INR (length ret).

(** [valueCoeff * meanSquaredError(return, value)] *)
Definition value_loss (value_coeff : R) (ret value : list R) : R :=
  value_coeff * mean_squared_error ret value.

(** [sum(exp(log_prob) * log_prob)] *)
Definition entropy_loss (log_prob : list R) : R :=
  big_sum (length log_prob) (fun i => exp (at_ log_prob i) * at_ log_prob i).

(** [policy loss + entropyCoeff * entropy loss] *)
Definition actor_objective (entropy_coeff : R) (advantage log_prob : list R) : R :=
  policy_loss advantage log_prob + entropy_coeff * entropy_loss log_prob.

Section Claimed.

Variables Obs Act Dist Params Opt Rng : Type.
Variable actor_forward : Params -> Obs -> Dist.
Variable critic_forward : Params -> Obs -> list R.
Variable dist_sample : Dist -> Rng -> Act * Rng.
Variable dist_mode : Dist -> Act.
Variable dist_log_prob : Dist -> Act -> list R.

(** [select_action] as the spec words it: the action is sampled when
    [deterministic] is false and is the deterministic mode when it is
    true; the value is the critic's at the same state; the result is
    (action, value, log-probability of the action). *)
Definition select_action_claimed (state : Obs) (deterministic : bool)
  : M (A2C.A2C Params Opt Rng) (Act * list R * list R) :=
  let* ad := A2C.ac_get_action Obs Act Dist Params Opt Rng
               actor_forward dist_sample dist_mode state deterministic in
  let* value := A2C.ac_get_value Obs Params Opt Rng critic_forward state in
  ret (fst ad, value, dist_log_prob (snd ad) (fst ad)).

End Claimed.

Section Contract.

Variables Obs Act Dist Params Opt Rng : Type.
Variable actor_forward : Params -> Obs -> Dist.
Variable critic_forward : Params -> Obs -> list R.
Variable dist_log_prob : Dist -> Act -> list R.
Variable long_flatten : Act -> Act.

(** What the loop of [update_policy] relies on from its collaborators:
    a minibatch is not empty, and whatever the parameters, the
    log-probabilities and the values re-evaluated on it have one entry per
    sample, like its advantages and returns. *)
Definition minibatch_ok (rollout : A2C.RolloutBufferSamples Obs Act) : Prop :=
  (0 < length (A2C.advantages rollout))%nat /\
  forall (params : Params) (acts : Act),
    length (dist_log_prob (actor_forward params (A2C.observations rollout)) acts)
      = length (A2C.advantages rollout) /\
    length (critic_forward params (A2C.observations rollout))
      = length (A2C.returns rollout).

(** The three lists that [empty_logs] creates are present, with [n]
    entries each. *)
Definition logs_filled (n : nat) (self : A2C.A2C Params Opt Rng) : Prop :=
  forall key, key ∈ ["policy_loss"; "value_loss"; "policy_entropy"]%string ->
    exists l, A2C.logs _ _ _ self !! key = Some l /\ length l = n.

End Contract.

End A2CSpec.

(** * A concrete actor-critic: one coin *)

Module Coin.

(** Actions are the two faces of a coin.  The actor's distribution is
    Bernoulli: its only datum is the probability [p] of [true].  The
    generator is the sequence of uniform draws from [0, 1) it will
    produce; a draw [u] samples [true] when [u < p].  The mode is the more
    probable face. *)
Definition Obs : Type := unit.
Definition Act : Type := bool.
Definition Dist : Type := R.
Definition Params : Type := R.
Definition Opt : Type := unit.
Definition Rng : Type := list R.

Definition actor_forward (p : Params) (_ : Obs) : Dist := p.
Definition critic_forward (_ : Params) (_ : Obs) : list R := [0].

Definition dist_sample (p : Dist) (g : Rng) : Act * Rng :=
  match g with
  | u :: g' => (if Rlt_dec u p then true else false, g')
  | [] => (false, [])
  end.

Definition dist_mode (p : Dist) : Act :=
  if Rlt_dec (1 / 2) p then true else false.

Definition dist_log_prob (p : Dist) (a : Act) : list R :=
  [if a then ln p else ln (1 - p)].

(** An agent whose coin shows [true] with probability 3/4 and whose
    generator will draw 0.9 next. *)
Definition agent : A2C.A2C Params Opt Rng :=
  A2C.mkA2C Params Opt Rng (3 / 4) tt tt (1 / 2) (1 / 100) true ∅ [9 / 10].

(** The same agent once [empty_logs] has run, a minibatch of one sample
    for it, and optimizers that leave the parameters alone. *)
Definition agent_with_logs : A2C.A2C Params Opt Rng :=
  state_of (A2C.empty_logs Params Opt Rng agent).

Definition minibatch : A2C.RolloutBufferSamples Obs Act :=
  A2C.mkSamples Obs Act tt true [2] [3].

Definition no_step (loss : R) (p : Params * Opt) : Params * Opt := p.

Definition update_minibatch :=
  A2C.update_minibatch Obs Act Dist Params Opt Rng
    actor_forward critic_forward dist_sample dist_mode dist_log_prob
    (fun a => a) no_step no_step.

Definition select_action :=
  A2C.select_action Obs Act Dist Params Opt Rng
    actor_forward critic_forward dist_sample dist_mode dist_log_prob.

Definition select_action_claimed :=
  A2CSpec.select_action_claimed Obs Act Dist Params Opt Rng
    actor_forward critic_forward dist_sample dist_mode dist_log_prob.

End Coin.

(** * The value-function classes and their registry ([values.py]) *)

Module ValuesMore.

(** The two classes of the file. *)
Inductive value_class : Type :=
| MlpValueClass
| CNNValueClass.

(** [value_registry = {"mlp": MlpValue, "cnn": CNNValue}] *)
Definition value_registry : gmap string value_class :=
  <["cnn" := CNNValueClass]> (<["mlp" := MlpValueClass]> ∅).

(** [get_value_from_name(name_)]:
<<
    if name_ in value_registry:
        return value_registry[name_]
    raise NotImplementedError
>>
    The function raises nothing else, and [None] stands for its
    [NotImplementedError]. *)
Definition get_value_from_name (name_ : string) : option value_class :=
  if bool_decide (is_Some (value_registry !! name_))
  then value_registry !! name_
  else None.

Section Classes.

(** [mlp] and [cnn] of genrl/deep/common/utils.py are not among the
    sources and are taken as they are called: [mlp(sizes, activation)]
    gives a network, [cnn(channels, activation=...)] gives a convolutional
    extractor and the size of its flattened output. *)
Variables Net Conv : Type.
Variable mlp : list (option Z) -> string -> Net.
Variable cnn : Z * Z * Z -> string -> Conv * Z.

(** [kwargs["activation"] if "activation" in kwargs else "relu"] *)
Definition activation_of (kwargs : gmap string string) : string :=
  match kwargs !! "activation"%string with
  | Some activation => activation
  | None => "relu"%string
  end.

(** The fields of an [MlpValue] and of a [CNNValue] object. *)
Record MlpValue : Type := mkMlpValue {
  mlp_state_dim : Z;
  mlp_action_dim : option Z;
  mlp_model : Net
}.

Record CNNValue : Type := mkCNNValue {
  cnn_action_dim : option Z;
  cnn_conv : Conv;
  cnn_fc : Net
}.

(** [MlpValue.__init__(state_dim, action_dim, val_type, hidden, **kwargs)];
    the defaults of the signature are [action_dim=None], [val_type="V"],
    [hidden=(32, 32)]:
<<
    self.state_dim = state_dim
    self.action_dim = action_dim
    activation = kwargs["activation"] if "activation" in kwargs else "relu"
    self.model = _get_val_model(
        mlp, val_type, state_dim, hidden, action_dim, activation
    )
>> *)
Definition MlpValue_init (state_dim : Z) (action_dim : option Z) (val_type : string)
    (hidden : list Z) (kwargs : gmap string string) : Values.result MlpValue :=
  let activation := activation_of kwargs in
  match Values._get_val_model Net mlp val_type state_dim hidden action_dim activation with
  | Values.Returned model => Values.Returned (mkMlpValue state_dim action_dim model)
  | Values.Raised e => Values.Raised e
  end.

(** [CNNValue.__init__(framestack, action_dim, val_type, fc_layers, **kwargs)];
    the defaults of the signature are [val_type="Qs"], [fc_layers=(256,)]:
<<
    self.action_dim = action_dim
    activation = kwargs["activation"] if "activation" in kwargs else "relu"
    self.conv, output_size = cnn((framestack, 16, 32), activation=activation)
    self.fc = _get_val_model(mlp, val_type, output_size, fc_layers, action_dim)
>>
    The last call leaves [activation] to its default, ["relu"]. *)
Definition CNNValue_init (framestack : Z) (action_dim : option Z) (val_type : string)
    (fc_layers : list Z) (kwargs : gmap string string) : Values.result CNNValue :=
  let activation := activation_of kwargs in
  let conv_size := cnn (framestack, 16, 32)%Z activation in
  match Values._get_val_model Net mlp val_type (snd conv_size) fc_layers action_dim "relu" with
  | Values.Returned fc => Values.Returned (mkCNNValue action_dim (fst conv_size) fc)
  | Values.Raised e => Values.Raised e
  end.

End Classes.

End ValuesMore.

(** * Reporting and checkpoints of the A2C agent ([a2c.py]) *)

Module A2CMore.

Section Agent.

(** Besides the collaborators of [Module A2C]: the actor and the critic
    are two torch modules of type [Net], and the parameters of the
    actor-critic are the pair of them; [SD] is what [state_dict()]
    returns; [Attr] is the type of the values of the hyperparameter
    attributes that the base class [OnPolicyAgent] (not among the sources)
    sets. *)
Variables Net Opt Rng Attr SD : Type.

(** A value in a checkpoint dictionary. *)
Inductive pyval : Type :=
| PyAttr (a : Attr)
| PyWeights (sd : SD).

(** [module.state_dict()] and [module.load_state_dict(x)] of torch, and
    [safe_mean] of genrl/deep/common (not among the sources), as they are
    called.  Loading may replace the parameters of the module and may
    raise. *)
Variable state_dict : Net -> SD.
Variable load_state_dict : pyval -> M Net unit.
Variable safe_mean : list R -> R.

(** The agent: the fields of [Module A2C], the list [self.rewards] and
    the attributes the object has, by name. *)
Record Agent : Type := mkAgent {
  base : A2C.A2C (Net * Net) Opt Rng;
  rewards : list R;
  attrs : gmap string Attr
}.

Definition set_base (b : A2C.A2C (Net * Net) Opt Rng) (s : Agent) : Agent :=
  mkAgent b (rewards s) (attrs s).

Definition set_rewards (r : list R) (s : Agent) : Agent :=
  mkAgent (base s) r (attrs s).

Definition set_ac (p : Net * Net) (b : A2C.A2C (Net * Net) Opt Rng)
  : A2C.A2C (Net * Net) Opt Rng :=
  A2C.mkA2C _ _ _ p (A2C.optimizer_policy _ _ _ b) (A2C.optimizer_value _ _ _ b)
    (A2C.value_coeff _ _ _ b) (A2C.entropy_coeff _ _ _ b) (A2C.discrete _ _ _ b)
    (A2C.logs _ _ _ b) (A2C.rng _ _ _ b).

(** A method of [Module A2C] run on the agent. *)
Definition on_base {A} (m : M (A2C.A2C (Net * Net) Opt Rng) A) : M Agent A :=
  fun s => match m (base s) with
           | Ok a b => Ok a (set_base b s)
           | Raise e b => Raise e (set_base b s)
           end.

(** A method of [self.ac.actor], and of [self.ac.critic], run on the
    agent. *)
Definition on_actor {A} (m : M Net A) : M Agent A :=
  fun s =>
    let ac := A2C.ac _ _ _ (base s) in
    match m (fst ac) with
    | Ok a actor => Ok a (set_base (set_ac (actor, snd ac) (base s)) s)
    | Raise e actor => Raise e (set_base (set_ac (actor, snd ac) (base s)) s)
    end.

Definition on_critic {A} (m : M Net A) : M Agent A :=
  fun s =>
    let ac := A2C.ac _ _ _ (base s) in
    match m (snd ac) with
    | Ok a critic => Ok a (set_base (set_ac (fst ac, critic) (base s)) s)
    | Raise e critic => Raise e (set_base (set_ac (fst ac, critic) (base s)) s)
    end.

(** [A2C.empty_logs()], with the list of rewards:
<<
    self.logs = {}
    self.logs["policy_loss"] = []
    self.logs["value_loss"] = []
    self.logs["policy_entropy"] = []
    self.rewards = []
>> *)
Definition empty_logs : M Agent unit :=
  let* _ := on_base (A2C.empty_logs (Net * Net) Opt Rng) in
  modify (set_rewards []).

(** [A2C.get_logging_params()]:
<<
    logs = {
        "policy_loss": safe_mean(self.logs["policy_loss"]),
        "value_loss": safe_mean(self.logs["value_loss"]),
        "policy_entropy": safe_mean(self.logs["policy_entropy"]),
        "mean_reward": safe_mean(self.rewards),
    }
    self.empty_logs()
    return logs
>> *)
Definition get_logging_params : M Agent (gmap string R) :=
  let* l := gets (fun s => A2C.logs _ _ _ (base s)) in
  let* policy_loss := or_raise KeyError (l !! "policy_loss"%string) in
  let* value_loss := or_raise KeyError (l !! "value_loss"%string) in
  let* policy_entropy := or_raise KeyError (l !! "policy_entropy"%string) in
  let* mean_reward := gets rewards in
  let logs : gmap string R :=
    <["mean_reward"%string := safe_mean mean_reward]>
      (<["policy_entropy"%string := safe_mean policy_entropy]>
        (<["value_loss"%string := safe_mean value_loss]>
          (<["policy_loss"%string := safe_mean policy_loss]> ∅))) in
  let* _ := empty_logs in
  ret logs.

(** [A2C.get_hyperparams()]; reading an attribute the object does not
    have is an [AttributeError], the only way the method fails, and
    [None] stands for it:
<<
    hyperparams = {
        "network_type": self.network_type,
        "batch_size": self.batch_size,
        "gamma": self.gamma,
        "lr_actor": self.lr_actor,
        "lr_critic": self.lr_critic,
        "rollout_size": self.rollout_size,
        "policy_weights": self.ac.actor.state_dict(),
        "value_weights": self.ac.critic.state_dict(),
    }
    return hyperparams
>> *)
Definition get_hyperparams (self : Agent) : option (gmap string pyval) :=
  network_type ← attrs self !! "network_type"%string;
  batch_size ← attrs self !! "batch_size"%string;
  gamma ← attrs self !! "gamma"%string;
  lr_actor ← attrs self !! "lr_actor"%string;
  lr_critic ← attrs self !! "lr_critic"%string;
  rollout_size ← attrs self !! "rollout_size"%string;
  Some (<["value_weights"%string :=
            PyWeights (state_dict (snd (A2C.ac _ _ _ (base self))))]>
         (<["policy_weights"%string :=
              PyWeights (state_dict (fst (A2C.ac _ _ _ (base self))))]>
           (<["rollout_size"%string := PyAttr rollout_size]>
             (<["lr_critic"%string := PyAttr lr_critic]>
               (<["lr_actor"%string := PyAttr lr_actor]>
                 (<["gamma"%string := PyAttr gamma]>
                   (<["batch_size"%string := PyAttr batch_size]>
                     (<["network_type"%string := PyAttr network_type]> ∅)))))))).

(** [A2C.load_weights(weights)]:
<<
    self.ac.actor.load_state_dict(weights["policy_weights"])
    self.ac.critic.load_state_dict(weights["value_weights"])
>> *)
Definition load_weights (weights : gmap string pyval) : M Agent unit :=
  let* policy_weights := or_raise KeyError (weights !! "policy_weights"%string) in
  let* _ := on_actor (load_state_dict policy_weights) in
  let* value_weights := or_raise KeyError (weights !! "value_weights"%string) in
  on_critic (load_state_dict value_weights).

End Agent.

End A2CMore.

(** * A concrete agent for reports and checkpoints *)

Module Checkpoint.

(** A torch module is the list of its parameters and its [state_dict] a
    copy of that list; loading a list of the same length replaces the
    parameters, loading anything else raises and changes nothing.
    Attribute values are strings. *)
Definition Net : Type := list R.
Definition SD : Type := list R.
Definition Attr : Type := string.

Definition state_dict (m : Net) : SD := m.

Definition load_state_dict (x : A2CMore.pyval Attr SD) : M Net unit :=
  match x with
  | A2CMore.PyWeights _ _ sd =>
      fun m => if (length sd =? length m)%nat then Ok tt sd else Raise RuntimeError m
  | A2CMore.PyAttr _ _ _ => raise TypeError
  end.

Definition safe_mean (xs : list R) : R :=
  match xs with
  | [] => 0
  | _ => UCBSpec.mean xs
  end.

Definition hyper : gmap string Attr :=
  <["network_type" := "mlp"]>
    (<["batch_size" := "256"]>
      (<["gamma" := "0.99"]>
        (<["lr_actor" := "0.01"]>
          (<["lr_critic" := "0.1"]>
            (<["rollout_size" := "2048"]> ∅))))).

(** A trained agent, with some logs and rewards, and an untrained one. *)
Definition trained : A2CMore.Agent Net unit unit Attr :=
  A2CMore.mkAgent Net unit unit Attr
    (A2C.mkA2C (Net * Net) unit unit ([1; 2], [3]) tt tt (1 / 2) (1 / 100) true
       (<["policy_entropy" := [5]]> (<["value_loss" := [4; 2]]> (<["policy_loss" := [3]]> ∅)))
       tt)
    [10; 20] hyper.

Definition untrained : A2CMore.Agent Net unit unit Attr :=
  A2CMore.mkAgent Net unit unit Attr
    (A2C.mkA2C (Net * Net) unit unit ([0; 0], [0]) tt tt (1 / 2) (1 / 100) true ∅ tt)
    [] hyper.

End Checkpoint.

(** * A policy that has been played *)

Module UCBExample.

(** A policy with two contexts and three arms, confidence 1, whose
    qualities and counts differ from arm to arm. *)
Definition visited : UCB.UCBCBPolicy :=
  UCB.mkUCBCBPolicy 1
    [[0; 5; 2]; [1; 1; 0]]
    [[0; 1; 2]; [3; 1; 0]]
    10 [] [5; 1; 3; 1; 2; 0; 1] [0; 5; 9; 9; 9; 9; 10].

End UCBExample.

(** * Further specification-side notions for the UCB policy *)

Module UCBMore.

Import UCB UCBSpec.

(** The sum of all entries of a two-dimensional array. *)
Definition sum2 (arr : list (list R)) : R :=
  foldr (fun row acc => total row + acc) 0 arr.

(** The rewards of all calls of [update_params] in a sequence of calls, in
    order. *)
Fixpoint update_rewards (calls : list call) : list R :=
  match calls with
  | [] => []
  | UpdateParams _ _ reward :: rest => reward :: update_rewards rest
  | SelectAction _ _ :: rest => update_rewards rest
  end.

(** The number of calls of [update_params] whose two indices are inside
    arrays of shape [(bandits, arms)]. *)
Definition inside (bandits arms : nat) (context action : Z) : bool :=
  bool_decide (is_Some (np_index bandits context) /\ is_Some (np_index arms action)).

Fixpoint updates_inside (bandits arms : nat) (calls : list call) : nat :=
  match calls with
  | [] => O
  | UpdateParams context action _ :: rest =>
      if inside bandits arms context action
      then S (updates_inside bandits arms rest)
      else updates_inside bandits arms rest
  | SelectAction _ _ :: rest => updates_inside bandits arms rest
  end.

(** The number of calls of [select_action] whose context is inside
    [bandits] rows and whose timestep [np.log] accepts. *)
Definition accepted (bandits : nat) (context t : Z) : bool :=
  bool_decide (is_Some (np_index bandits context) /\ is_Some (np_log (t + 1))).

Fixpoint selects_inside (bandits : nat) (calls : list call) : nat :=
  match calls with
  | [] => O
  | SelectAction context t :: rest =>
      if accepted bandits context t
      then S (selects_inside bandits rest)
      else selects_inside bandits rest
  | UpdateParams _ _ _ :: rest => selects_inside bandits rest
  end.

(** Action [a] is the first action of greatest quality in row [i]. *)
Definition greedy (s : UCBCBPolicy) (arms i a : nat) : Prop :=
  (a < arms)%nat /\
  (forall j, (j < arms)%nat -> entry (_quality s) i j <= entry (_quality s) i a) /\
  (forall j, (j < a)%nat -> entry (_quality s) i j < entry (_quality s) i a).

(** The cumulative regret of a policy is never negative and is the last
    entry of its regret history (0 while the history is empty). *)
Definition regret_is_last (s : UCBCBPolicy) : Prop :=
  0 <= _regret s /\
  match last (_regret_hist s) with
  | Some r => r = _regret s
  | None => _regret s = 0
  end.

(** Every element of [rs] lies between [lo] and [hi]. *)
Definition within (lo hi : R) (rs : list R) : Prop :=
  Forall (fun r => lo <= r <= hi) rs.

End UCBMore.

Import UCBSpec.
Import UCBMore.

(** * Facts about indexing, [np.argmax] and [max] *)

Lemma np_index_nonneg n i :
  (0 <= i < Z.of_nat n)%Z -> np_index n i = Some (Z.to_nat i).
Proof.
  intros [H0 H1]. unfold np_index.
  destruct (Z.leb_spec 0 i); [|lia].
  destruct (Z.ltb_spec i (Z.of_nat n)); [reflexivity|lia].
Qed.

Lemma np_index_lt n i j : np_index n i = Some j -> (j < n)%nat.
Proof.
  unfold np_index.
  destruct (Z.leb_spec 0 i), (Z.ltb_spec i (Z.of_nat n)); simpl;
    try (intros [= <-]; lia);
    destruct (Z.leb_spec (- Z.of_nat n) i), (Z.ltb_spec i 0); simpl;
    try discriminate; intros [= <-]; lia.
Qed.

Lemma getitem_Some {A} (xs : list A) i j :
  np_index (length xs) i = Some j -> exists x, getitem xs i = Some x /\ xs !! j = Some x.
Proof.
  intros Hi. unfold getitem. rewrite Hi.
  destruct (lookup_lt_is_Some_2 xs j (np_index_lt _ _ _ Hi)) as [x Hx].
  exists x. by rewrite Hx.
Qed.

Lemma getitem_None {A} (xs : list A) i :
  np_index (length xs) i = None -> getitem xs i = None.
Proof. intros Hi. unfold getitem. by rewrite Hi. Qed.

(** The scan keeps the first greatest entry of the part of the list it has
    read: [l] is the whole list, [i] entries of which are read. *)
Lemma argmax_from_spec (l : list R) xs best_i best i k m :
  argmax_from best_i best i xs = (k, m) ->
  drop i l = xs ->
  (i <= length l)%nat ->
  l !! best_i = Some best ->
  (forall j y, (j < i)%nat -> l !! j = Some y -> y <= best) ->
  (forall j y, (j < best_i)%nat -> l !! j = Some y -> y < best) ->
  l !! k = Some m /\
  (forall j y, l !! j = Some y -> y <= m) /\
  (forall j y, (j < k)%nat -> l !! j = Some y -> y < m).
Proof.
  revert best_i best i.
  induction xs as [|x xs IH]; intros best_i best i Hrun Hdrop Hlen Hbest Hle Hlt.
  - simpl in Hrun. injection Hrun as <- <-.
    assert (length l <= i)%nat.
    { apply (f_equal length) in Hdrop. rewrite length_drop in Hdrop. simpl in Hdrop. lia. }
    split; [done|]. split; [|done].
    intros j y Hj. apply (Hle j y); [|done].
    apply lookup_lt_Some in Hj. lia.
  - assert (Hx : l !! i = Some x).
    { rewrite <- (Nat.add_0_r i), <- lookup_drop, Hdrop. done. }
    assert (Hdrop' : drop (S i) l = xs).
    { replace (S i) with (i + 1)%nat by lia.
      rewrite <- drop_drop, Hdrop. done. }
    assert (Hlen' : (S i <= length l)%nat) by (apply lookup_lt_Some in Hx; lia).
    simpl in Hrun. destruct (Rlt_dec best x) as [Hlt'|Hge].
    + apply (IH _ _ _ Hrun Hdrop' Hlen' Hx).
      * intros j y Hj Hy. destruct (decide (j = i)) as [->|].
        -- rewrite Hx in Hy. injection Hy as <-. lra.
        -- assert (y <= best) by (apply (Hle j y); [lia|done]). lra.
      * intros j y Hj Hy.
        assert (y <= best) by (apply (Hle j y); done). lra.
    + apply (IH _ _ _ Hrun Hdrop' Hlen' Hbest).
      * intros j y Hj Hy. destruct (decide (j = i)) as [->|].
        -- rewrite Hx in Hy. injection Hy as <-. lra.
        -- apply (Hle j y); [lia|done].
      * done.
Qed.

Lemma argmax_nonempty (xs : list R) :
  xs <> [] ->
  exists k m,
    np_argmax xs = Some k /\ py_max xs = Some m /\
    xs !! k = Some m /\
    (forall j y, xs !! j = Some y -> y <= m) /\
    (forall j y, (j < k)%nat -> xs !! j = Some y -> y < m).
Proof.
  destruct xs as [|x xs]; [done|]. intros _.
  destruct (argmax_from 0 x 1 xs) as [k m] eqn:Hrun.
  exists k, m. unfold np_argmax, py_max. rewrite Hrun. simpl.
  split; [done|]. split; [done|].
  apply (argmax_from_spec (x :: xs) xs 0%nat x 1%nat k m Hrun); simpl.
  - done.
  - lia.
  - done.
  - intros [|j] y Hj Hy; [|lia]. simpl in Hy. injection Hy as <-. lra.
  - intros j y Hj. lia.
Qed.

Lemma py_max_is_max (row : list R) m : py_max row = Some m -> is_max m row.
Proof.
  intros Hm. destruct (argmax_nonempty row) as (k & m' & _ & Hm' & Hk & Hle & _).
  { intros ->. discriminate. }
  rewrite Hm in Hm'. injection Hm' as <-. split.
  - apply list_elem_of_lookup. eauto.
  - intros x [j Hj]%list_elem_of_lookup. eauto.
Qed.

(** ** Reading and writing an array of a known shape *)

Lemma shaped_row rows cols arr i row :
  shaped rows cols arr -> arr !! i = Some row -> length row = cols.
Proof. intros [_ Hall] Hi. by apply (Forall_lookup_1 _ _ _ _ Hall Hi). Qed.

Lemma shaped_getitem rows cols arr context i :
  shaped rows cols arr -> np_index rows context = Some i ->
  exists row, getitem arr context = Some row /\ arr !! i = Some row /\ length row = cols.
Proof.
  intros Hs Hi. destruct Hs as [Hlen Hall].
  destruct (getitem_Some arr context i) as (row & Hg & Hrow); [by rewrite Hlen|].
  exists row. split; [done|]. split; [done|].
  by apply (Forall_lookup_1 _ _ _ _ Hall Hrow).
Qed.

Lemma shaped_getitem2 rows cols arr context action i j :
  shaped rows cols arr ->
  np_index rows context = Some i -> np_index cols action = Some j ->
  getitem2 arr context action = Some (entry arr i j).
Proof.
  intros Hs Hi Hj.
  destruct (shaped_getitem _ _ _ _ _ Hs Hi) as (row & Hg & Hrow & Hlen).
  unfold getitem2, entry. rewrite Hg, Hrow.
  destruct (getitem_Some row action j) as (x & Hgx & Hx); [by rewrite Hlen|].
  by rewrite Hgx, Hx.
Qed.

Lemma shaped_setitem2 rows cols arr context action i j v :
  shaped rows cols arr ->
  np_index rows context = Some i -> np_index cols action = Some j ->
  setitem2 arr context action v = Some (update2 arr i j v).
Proof.
  intros Hs Hi Hj.
  destruct (shaped_getitem _ _ _ _ _ Hs Hi) as (row & Hg & Hrow & Hlen).
  destruct Hs as [Hrows _].
  unfold setitem2, setitem, update2. rewrite Hg, Hlen, Hj, Hrows, Hi.
  f_equal. apply list_eq. intros k.
  destruct (decide (k = i)) as [->|Hne].
  - rewrite list_lookup_insert_eq by (by apply lookup_lt_Some in Hrow).
    by rewrite list_lookup_alter_eq, Hrow.
  - rewrite list_lookup_insert_ne by done. by rewrite list_lookup_alter_ne.
Qed.

Lemma shaped_update2 rows cols arr i j v :
  shaped rows cols arr -> shaped rows cols (update2 arr i j v).
Proof.
  intros [Hlen Hall]. unfold update2. split.
  - by rewrite length_alter.
  - apply Forall_alter; [done|]. intros row _ Hrow. by rewrite length_insert.
Qed.

Lemma entry_update2_eq rows cols arr i j v :
  shaped rows cols arr -> (i < rows)%nat -> (j < cols)%nat ->
  entry (update2 arr i j v) i j = v.
Proof.
  intros [Hlen Hall] Hi Hj. unfold entry, update2.
  destruct (lookup_lt_is_Some_2 arr i) as [row Hrow]; [lia|].
  rewrite list_lookup_alter_eq, Hrow. simpl.
  rewrite list_lookup_insert_eq; [done|].
  by rewrite (Forall_lookup_1 _ _ _ _ Hall Hrow).
Qed.

Lemma entry_update2_ne arr i j i' j' v :
  (i', j') <> (i, j) -> entry (update2 arr i j v) i' j' = entry arr i' j'.
Proof.
  intros Hne. unfold entry, update2.
  destruct (decide (i' = i)) as [->|Hi].
  - rewrite list_lookup_alter_eq. destruct (arr !! i) as [row|]; [|done]. simpl.
    rewrite list_lookup_insert_ne; [done|]. congruence.
  - by rewrite list_lookup_alter_ne.
Qed.

Lemma shaped_zeros rows cols : shaped rows cols (np_zeros rows cols).
Proof.
  unfold np_zeros. split.
  - apply length_replicate.
  - apply Forall_replicate. apply length_replicate.
Qed.

Lemma entry_zeros rows cols i j : entry (np_zeros rows cols) i j = 0.
Proof.
  unfold entry, np_zeros.
  destruct (replicate rows (replicate cols 0) !! i) as [row|] eqn:Hrow; [|done].
  apply lookup_replicate in Hrow as [-> _].
  destruct (replicate cols 0 !! j) as [x|] eqn:Hx; [|done].
  by apply lookup_replicate in Hx as [-> _].
Qed.

(** * The UCB policy: what one call does *)

Lemma update_params_inside rows cols s context action reward i j :
  shaped rows cols (UCB._quality s) -> shaped rows cols (UCB._counts s) ->
  np_index rows context = Some i -> np_index cols action = Some j ->
  exists row m,
    UCB._quality s !! i = Some row /\ py_max row = Some m /\
    UCB.update_params context action reward s = Ok tt (updated s i j m reward).
Proof.
  intros Hq Hn Hi Hj.
  destruct (shaped_getitem _ _ _ _ _ Hq Hi) as (row & Hg & Hrow & Hlen).
  destruct (argmax_nonempty row) as (k & m & _ & Hm & _).
  { intros ->. simpl in Hlen. subst cols. apply np_index_lt in Hj. lia. }
  exists row, m. split; [done|]. split; [done|].
  unfold UCB.update_params, UCB.reward_hist_append, UCB.regret_hist_append,
    UCB.quality, UCB.counts, UCB.regret, bind, gets, modify. simpl.
  rewrite Hg. simpl. rewrite Hm. simpl.
  repeat (first [ rewrite (shaped_getitem2 _ _ _ _ _ _ _ Hq Hi Hj)
                 | rewrite (shaped_getitem2 _ _ _ _ _ _ _ Hn Hi Hj)
                 | rewrite (shaped_setitem2 _ _ _ _ _ _ _ _ Hq Hi Hj)
                 | rewrite (shaped_setitem2 _ _ _ _ _ _ _ _ Hn Hi Hj) ]; simpl).
  reflexivity.
Qed.

Lemma update_params_outside rows cols s context action reward :
  shaped rows cols (UCB._quality s) ->
  np_index rows context = None \/ np_index cols action = None ->
  exists e,
    UCB.update_params context action reward s
    = Raise e (UCB.set_reward_hist (UCB._reward_hist s ++ [reward]) s).
Proof.
  intros Hq Hout.
  unfold UCB.update_params, UCB.reward_hist_append, UCB.regret_hist_append,
    UCB.quality, UCB.counts, UCB.regret, bind, gets, modify. simpl.
  destruct (np_index rows context) as [i|] eqn:Hi.
  - destruct Hout as [|Hj]; [done|].
    destruct (shaped_getitem _ _ _ _ _ Hq Hi) as (row & Hg & Hrow & Hlen).
    rewrite Hg. simpl.
    destruct (py_max row) as [m|]; simpl; [|by eexists].
    unfold getitem2. rewrite Hg.
    rewrite getitem_None by (by rewrite Hlen). simpl. by eexists.
  - rewrite getitem_None by (by destruct Hq as [-> _]). simpl. by eexists.
Qed.

(** Whatever the state and the arguments, [select_action] either raises
    and leaves the object as it was, or returns an action and has appended
    the pair to the action history. *)
Lemma select_action_cases context t s :
  (exists e, UCB.select_action context t s = Raise e s) \/
  (exists a, UCB.select_action context t s
             = Ok a (UCB.set_action_hist (UCB._action_hist s ++ [(context, a)]) s)).
Proof.
  unfold UCB.select_action, UCB.action_hist_append, UCB.quality, UCB.counts,
    UCB.confidence, bind, gets, modify. simpl.
  destruct (getitem (UCB._quality s) context) as [q_row|]; simpl; [|left; by eexists].
  destruct (np_log (t + 1)) as [[l|]|]; simpl; [| |left; by eexists].
  - destruct (getitem (UCB._counts s) context) as [n_row|]; simpl; [|left; by eexists].
    destruct (broadcast2 _ _ _) as [score|]; simpl; [|left; by eexists].
    destruct (np_argmax score) as [a|]; simpl; [|left; by eexists].
    right. by eexists.
  - destruct (getitem (UCB._counts s) context) as [n_row|]; simpl; [|left; by eexists].
    destruct (broadcast2 _ _ _) as [score|]; simpl; [|left; by eexists].
    destruct (np_argmax_nan score) as [a|]; simpl; [|left; by eexists].
    right. by eexists.
Qed.

(** Whatever the state and the arguments, [update_params] adds a
    non-negative amount [d] to the cumulative regret, and the regret
    history is either untouched (the call raised before the regret was
    computed) or extended by the new regret. *)
Lemma update_params_regret context action reward s :
  exists d, 0 <= d /\
    UCB._regret (state_of (UCB.update_params context action reward s))
      = UCB._regret s + d /\
    (UCB._regret_hist (state_of (UCB.update_params context action reward s))
       = UCB._regret_hist s /\ d = 0
     \/
     UCB._regret_hist (state_of (UCB.update_params context action reward s))
       = UCB._regret_hist s ++ [UCB._regret s + d]).
Proof.
  unfold UCB.update_params, UCB.reward_hist_append, UCB.regret_hist_append,
    UCB.quality, UCB.counts, UCB.regret, bind, gets, modify. simpl.
  destruct (getitem (UCB._quality s) context) as [row|] eqn:Hrow; simpl;
    [|exists 0; split; [lra|]; split; [lra|by left]].
  destruct (py_max row) as [m|] eqn:Hm; simpl;
    [|exists 0; split; [lra|]; split; [lra|by left]].
  destruct (getitem2 (UCB._quality s) context action) as [q|] eqn:Hq; simpl;
    [|exists 0; split; [lra|]; split; [lra|by left]].
  exists (m - q).
  assert (q <= m) as Hle.
  { apply py_max_is_max in Hm as [_ Hall]. apply Hall.
    unfold getitem2 in Hq. rewrite Hrow in Hq. unfold getitem in Hq.
    destruct (np_index (length row) action); [|done].
    apply list_elem_of_lookup. eauto. }
  split; [lra|].
  repeat match goal with
         | |- context [or_raise _ ?o] => destruct o; simpl
         end; (split; [reflexivity|by right]).
Qed.

(** ** The state invariant *)

Lemma entry_nonneg arr i j :
  Forall (Forall (fun n => 0 <= n)) arr -> 0 <= entry arr i j.
Proof.
  intros Hall. unfold entry.
  destruct (arr !! i) as [row|] eqn:Hrow; [|lra].
  destruct (row !! j) as [x|] eqn:Hx; simpl; [|lra].
  eapply Forall_lookup_1 in Hall; [|done].
  eapply Forall_lookup_1 in Hall; done.
Qed.

Lemma wf_init bandits arms confidence : wf bandits arms (UCB.__init__ bandits arms confidence).
Proof.
  unfold wf, UCB.__init__. simpl. split; [apply shaped_zeros|]. split; [apply shaped_zeros|].
  unfold np_zeros. apply Forall_replicate, Forall_replicate. lra.
Qed.

Lemma wf_updated bandits arms s i j m reward :
  wf bandits arms s -> wf bandits arms (updated s i j m reward).
Proof.
  intros (Hq & Hn & Hpos). unfold wf, updated. simpl.
  split; [by apply shaped_update2|]. split; [by apply shaped_update2|].
  unfold update2. apply Forall_alter; [done|]. intros row Hrow Hr.
  apply Forall_insert; [done|].
  pose proof (entry_nonneg (UCB._counts s) i j Hpos). lra.
Qed.

Lemma wf_exec bandits arms k s : wf bandits arms s -> wf bandits arms (exec k s).
Proof.
  intros Hwf. destruct k as [context t|context action reward]; simpl.
  - destruct (select_action_cases context t s) as [[e ->]|[a ->]]; done.
  - destruct Hwf as (Hq & Hn & Hpos).
    destruct (np_index bandits context) as [i|] eqn:Hi;
      [destruct (np_index arms action) as [j|] eqn:Hj|].
    + destruct (update_params_inside _ _ s context action reward i j Hq Hn Hi Hj)
        as (row & m & _ & _ & ->).
      by apply wf_updated.
    + destruct (update_params_outside _ _ s context action reward Hq) as [e ->]; [by right|done].
    + destruct (update_params_outside _ _ s context action reward Hq) as [e ->]; [by left|done].
Qed.

Lemma wf_run bandits arms calls s : wf bandits arms s -> wf bandits arms (run calls s).
Proof.
  revert s. induction calls as [|k calls IH]; intros s Hwf; [done|].
  simpl. apply IH. by apply wf_exec.
Qed.

Lemma wf_visited : wf 2 3 UCBExample.visited.
Proof.
  unfold wf, shaped, UCBExample.visited. simpl.
  repeat split; repeat constructor; lra.
Qed.

(** * C1: [select_action] returns the first action of greatest score *)

Lemma map_lookup {A B} (f : A -> B) (l : list A) (i : nat) :
  map f l !! i = f <$> (l !! i).
Proof. apply (list_lookup_fmap f l i). Qed.

Lemma score_lookup s bandits arms i t q_row n_row j :
  shaped bandits arms (UCB._quality s) -> shaped bandits arms (UCB._counts s) ->
  UCB._quality s !! i = Some q_row -> UCB._counts s !! i = Some n_row ->
  (j < arms)%nat ->
  zip_with Rplus q_row
    (map (fun x => UCB._c s * x)
       (map sqrt (map (fun d => 2 * ln (IZR (t + 1)) / d) (map (fun x => x + 1) n_row))))
    !! j
  = Some (score s i t j).
Proof.
  intros Hq Hn Hqr Hnr Hj.
  pose proof (shaped_row _ _ _ _ _ Hq Hqr) as Hlq.
  pose proof (shaped_row _ _ _ _ _ Hn Hnr) as Hln.
  destruct (lookup_lt_is_Some_2 q_row j) as [qj Hqj]; [lia|].
  destruct (lookup_lt_is_Some_2 n_row j) as [nj Hnj]; [lia|].
  rewrite lookup_zip_with, Hqj. simpl.
  rewrite !map_lookup, Hnj. simpl.
  unfold score, entry. rewrite Hqr, Hnr, Hqj, Hnj. simpl.
  by rewrite plus_IZR.
Qed.

(** ** The three outcomes of [np.log(t + 1)] *)

Lemma np_log_finite t :
  (0 <= t)%Z -> (t + 1 < 2 ^ 64)%Z ->
  np_log (t + 1) = Some (Finite (ln (IZR (t + 1)))).
Proof.
  intros H0 H1. unfold np_log.
  destruct (Z.ltb_spec (t + 1) (- 2 ^ 63)); [lia|].
  destruct (Z.leb_spec (2 ^ 64) (t + 1)); [lia|]. simpl.
  destruct (Z.leb_spec (t + 1) 0); [lia|]. done.
Qed.

Lemma np_log_not_finite t :
  (- 2 ^ 63 <= t + 1 <= 0)%Z -> np_log (t + 1) = Some NotFinite.
Proof.
  intros [H0 H1]. unfold np_log.
  destruct (Z.ltb_spec (t + 1) (- 2 ^ 63)); [lia|].
  destruct (Z.leb_spec (2 ^ 64) (t + 1)); [lia|]. simpl.
  destruct (Z.leb_spec (t + 1) 0); [done|lia].
Qed.

Lemma np_log_too_large t : (2 ^ 64 <= t + 1)%Z -> np_log (t + 1) = None.
Proof.
  intros H. unfold np_log.
  destruct (Z.leb_spec (2 ^ 64) (t + 1)); [|lia]. by rewrite orb_true_r.
Qed.

Lemma np_log_Some_range t :
  is_Some (np_log (t + 1)) <-> (- 2 ^ 63 <= t + 1 < 2 ^ 64)%Z.
Proof.
  unfold np_log.
  destruct (Z.ltb_spec (t + 1) (- 2 ^ 63)), (Z.leb_spec (2 ^ 64) (t + 1)); simpl;
    try (split; [by intros [? ?]|lia]).
  split; [lia|]. intros _. by destruct (t + 1 <=? 0)%Z.
Qed.

(** ** The outcomes of [select_action] for a context inside the shape *)

(** With a logarithm: the first action of greatest score of the row is
    returned and the pair is recorded with the context as the caller wrote
    it. *)
Lemma select_action_inside bandits arms s context t i :
  wf bandits arms s -> (0 < arms)%nat ->
  np_index bandits context = Some i ->
  (0 <= t)%Z -> (t + 1 < 2 ^ 64)%Z ->
  exists a,
    UCB.select_action context t s
      = Ok a (UCB.set_action_hist (UCB._action_hist s ++ [(context, a)]) s) /\
    (a < arms)%nat /\
    (forall j, (j < arms)%nat -> score s i t j <= score s i t a) /\
    (forall j, (j < a)%nat -> score s i t j < score s i t a).
Proof.
  intros (Hq & Hn & _) Harms Hi Ht0 Ht1.
  destruct (shaped_getitem _ _ _ _ _ Hq Hi) as (q_row & Hgq & Hqr & Hlq).
  destruct (shaped_getitem _ _ _ _ _ Hn Hi) as (n_row & Hgn & Hnr & Hln).
  unfold UCB.select_action, UCB.action_hist_append, UCB.quality, UCB.counts,
    UCB.confidence, bind, gets, modify. simpl.
  rewrite Hgq. simpl. rewrite (np_log_finite t Ht0 Ht1). simpl. rewrite Hgn. simpl.
  set (bonus := map _ (map sqrt _)).
  assert (length bonus = arms) as Hlb by (unfold bonus; by rewrite !length_map).
  unfold broadcast2. rewrite Hlq, Hlb, Nat.eqb_refl. simpl.
  set (scores := zip_with Rplus q_row bonus).
  assert (forall j, (j < arms)%nat -> scores !! j = Some (score s i t j)) as Hscore.
  { intros j Hj. by apply (score_lookup s bandits arms). }
  assert (length scores = arms) as Hls.
  { unfold scores. rewrite length_zip_with. lia. }
  destruct (argmax_nonempty scores) as (a & m & Ha & _ & Ham & Hle & Hlt).
  { intros Hnil. rewrite Hnil in Hls. simpl in Hls. lia. }
  rewrite Ha. simpl. exists a. split; [reflexivity|].
  assert (a < arms)%nat as Halt by (apply lookup_lt_Some in Ham; lia).
  split; [done|].
  rewrite (Hscore a Halt) in Ham. injection Ham as <-.
  split.
  - intros j Hj. apply (Hle j). by apply Hscore.
  - intros j Hj. apply (Hlt j); [done|]. apply Hscore. lia.
Qed.

(** Without one ([t + 1 <= 0]): every score is nan and action 0 is
    returned and recorded. *)
Lemma select_action_not_finite bandits arms s context t i :
  wf bandits arms s -> (0 < arms)%nat ->
  np_index bandits context = Some i ->
  np_log (t + 1) = Some NotFinite ->
  UCB.select_action context t s
  = Ok 0%nat (UCB.set_action_hist (UCB._action_hist s ++ [(context, 0%nat)]) s).
Proof.
  intros (Hq & Hn & _) Harms Hi Hlog.
  destruct (shaped_getitem _ _ _ _ _ Hq Hi) as (q_row & Hgq & Hqr & Hlq).
  destruct (shaped_getitem _ _ _ _ _ Hn Hi) as (n_row & Hgn & Hnr & Hln).
  unfold UCB.select_action, UCB.action_hist_append, UCB.quality, UCB.counts,
    UCB.confidence, bind, gets, modify. simpl.
  rewrite Hgq. simpl. rewrite Hlog. simpl. rewrite Hgn. simpl.
  unfold broadcast2. rewrite Hlq, Hln, Nat.eqb_refl. simpl.
  destruct (zip_with Rplus q_row n_row) as [|x xs] eqn:Hz; [|done].
  apply (f_equal length) in Hz. rewrite length_zip_with in Hz. simpl in Hz. lia.
Qed.

(** With a timestep too large for [np.log]: [TypeError], and the policy
    is as before. *)
Lemma select_action_type_error rows cols s context t i :
  shaped rows cols (UCB._quality s) ->
  np_index rows context = Some i ->
  np_log (t + 1) = None ->
  UCB.select_action context t s = Raise TypeError s.
Proof.
  intros Hq Hi Hlog.
  destruct (shaped_getitem _ _ _ _ _ Hq Hi) as (q_row & Hgq & _).
  unfold UCB.select_action, UCB.quality, UCB.confidence, bind, gets. simpl.
  rewrite Hgq. simpl. rewrite Hlog. done.
Qed.

(** Whenever [np.log] accepts the timestep, the call returns. *)
Lemma select_action_returns bandits arms s context t i :
  wf bandits arms s -> (0 < arms)%nat ->
  np_index bandits context = Some i ->
  is_Some (np_log (t + 1)) ->
  exists a,
    UCB.select_action context t s
    = Ok a (UCB.set_action_hist (UCB._action_hist s ++ [(context, a)]) s).
Proof.
  intros Hwf Harms Hi Hlog. apply np_log_Some_range in Hlog.
  destruct (Z.le_gt_cases (t + 1) 0).
  - exists 0%nat. apply (select_action_not_finite bandits arms _ _ _ i); try done.
    apply np_log_not_finite. lia.
  - destruct (select_action_inside bandits arms s context t i) as (a & Hrun & _);
      try done; try lia.
    by exists a.
Qed.

(** C1, amended.  In a well-formed policy with at least one arm, for a
    context [c] in [0, numContexts) and a timestep [t >= 0] with
    [t + 1 < 2**64], [select_action(c, t)] returns an action [a] in
    [0, numArms) whose score
    [quality[c,a] + confidence * sqrt(2 * ln(t+1) / (counts[c,a] + 1))]
    is greatest among all actions, and strictly greater than the score of
    every action of lower index (ties go to the lowest index). *)
Theorem select_action_argmax bandits arms s context t :
  wf bandits arms s -> (0 < arms)%nat ->
  (0 <= context < Z.of_nat bandits)%Z -> (0 <= t)%Z -> (t + 1 < 2 ^ 64)%Z ->
  exists a s',
    UCB.select_action context t s = Ok a s' /\
    (a < arms)%nat /\
    (forall j, (j < arms)%nat ->
       score s (Z.to_nat context) t j <= score s (Z.to_nat context) t a) /\
    (forall j, (j < a)%nat ->
       score s (Z.to_nat context) t j < score s (Z.to_nat context) t a).
Proof.
  intros Hwf Harms Hc Ht0 Ht1.
  destruct (select_action_inside bandits arms s context t (Z.to_nat context)
              Hwf Harms (np_index_nonneg _ _ Hc) Ht0 Ht1) as (a & Hrun & Hrest).
  exists a. eexists. split; [exact Hrun|exact Hrest].
Qed.

Lemma select_action_argmax_witness :
  wf 2 3 UCBExample.visited /\ (0 < 3)%nat /\ (0 <= 0 < Z.of_nat 2)%Z /\
  (0 <= 5)%Z /\ (5 + 1 < 2 ^ 64)%Z /\
  exists a s',
    UCB.select_action 0 5 UCBExample.visited = Ok a s' /\
    (a < 3)%nat /\
    (forall j, (j < 3)%nat ->
       score UCBExample.visited (Z.to_nat 0) 5 j <= score UCBExample.visited (Z.to_nat 0) 5 a) /\
    (forall j, (j < a)%nat ->
       score UCBExample.visited (Z.to_nat 0) 5 j < score UCBExample.visited (Z.to_nat 0) 5 a).
Proof.
  split; [apply wf_visited|]. split; [lia|]. split; [lia|]. split; [lia|]. split; [lia|].
  apply (select_action_argmax 2 3 UCBExample.visited 0 5); [apply wf_visited|lia..].
Defined.

(** C1 as stated fails for a timestep that [np.log] does not accept: on
    a fresh policy with one context and two arms,
    [select_action(0, 2**64 - 1)] raises [TypeError] and returns no
    action, although the context is in range and the timestep is not
    negative. *)
Lemma select_action_argmax_counterexample :
  wf 1 2 (UCB.__init__ 1 2 1) /\ (0 <= 0 < Z.of_nat 1)%Z /\ (0 <= 2 ^ 64 - 1)%Z /\
  UCB.select_action 0 (2 ^ 64 - 1) (UCB.__init__ 1 2 1)
    = Raise TypeError (UCB.__init__ 1 2 1) /\
  ~ exists a s', UCB.select_action 0 (2 ^ 64 - 1) (UCB.__init__ 1 2 1) = Ok a s'.
Proof.
  assert (UCB.select_action 0 (2 ^ 64 - 1) (UCB.__init__ 1 2 1)
          = Raise TypeError (UCB.__init__ 1 2 1)) as Hrun.
  { apply (select_action_type_error 1 2 _ _ _ 0%nat);
      [apply shaped_zeros|reflexivity|apply np_log_too_large; lia]. }
  split; [apply wf_init|]. split; [lia|]. split; [lia|]. split; [exact Hrun|].
  intros (a & s' & Hok). rewrite Hrun in Hok. discriminate.
Qed.

(** * C2: the effects of [update_params], in order *)

(** C2.  In a well-formed policy, for a context [c] and an action [a]
    inside the shape and any reward [r], [update_params(c, a, r)] returns
    and leaves a state in which: [r] is appended to the reward history;
    the cumulative regret has grown by [m - quality[c,a]], where [m] is
    the greatest entry of row [c] of the quality array before the call and
    [quality[c,a]] is read before the call too; the new regret is appended
    to the regret history; [quality[c,a]] has grown by
    [(r - quality[c,a]) / (counts[c,a] + 1)]; [counts[c,a]] has grown by 1.
    Confidence and action history are as before. *)
Theorem update_params_effect bandits arms s context action reward :
  wf bandits arms s ->
  (0 <= context < Z.of_nat bandits)%Z -> (0 <= action < Z.of_nat arms)%Z ->
  exists row m s',
    UCB._quality s !! Z.to_nat context = Some row /\ is_max m row /\
    UCB.update_params context action reward s = Ok tt s' /\
    UCB._reward_hist s' = UCB._reward_hist s ++ [reward] /\
    UCB._regret s'
      = UCB._regret s + (m - entry (UCB._quality s) (Z.to_nat context) (Z.to_nat action)) /\
    UCB._regret_hist s' = UCB._regret_hist s ++ [UCB._regret s'] /\
    UCB._quality s'
      = update2 (UCB._quality s) (Z.to_nat context) (Z.to_nat action)
          (entry (UCB._quality s) (Z.to_nat context) (Z.to_nat action)
           + (reward - entry (UCB._quality s) (Z.to_nat context) (Z.to_nat action))
             / (entry (UCB._counts s) (Z.to_nat context) (Z.to_nat action) + 1)) /\
    UCB._counts s'
      = update2 (UCB._counts s) (Z.to_nat context) (Z.to_nat action)
          (entry (UCB._counts s) (Z.to_nat context) (Z.to_nat action) + 1) /\
    UCB._action_hist s' = UCB._action_hist s /\
    UCB._c s' = UCB._c s.
Proof.
  intros (Hq & Hn & _) Hc Ha.
  destruct (update_params_inside bandits arms s context action reward
              (Z.to_nat context) (Z.to_nat action) Hq Hn)
    as (row & m & Hrow & Hm & Hrun); [by apply np_index_nonneg..|].
  exists row, m, (updated s (Z.to_nat context) (Z.to_nat action) m reward).
  split; [done|]. split; [by apply py_max_is_max|]. split; [done|].
  unfold updated. simpl. done.
Qed.

Lemma update_params_effect_witness :
  wf 1 2 (UCB.__init__ 1 2 1) /\ (0 <= 0 < Z.of_nat 1)%Z /\ (0 <= 1 < Z.of_nat 2)%Z /\
  exists s', UCB.update_params 0 1 5 (UCB.__init__ 1 2 1) = Ok tt s' /\
             UCB._reward_hist s' = [5].
Proof.
  split; [apply wf_init|]. split; [lia|]. split; [lia|].
  destruct (update_params_effect 1 2 (UCB.__init__ 1 2 1) 0 1 5)
    as (row & m & s' & _ & _ & Hrun & Hrew & _); [apply wf_init|lia|lia|].
  exists s'. split; [exact Hrun|exact Hrew].
Defined.

(** * C7: what [update_params] leaves alone *)

(** C7.  In a well-formed policy, for indices inside the shape, one call
    [update_params(c, a, r)] returns, adds exactly 1 to [counts[c,a]],
    leaves every other entry of [counts] and every entry of [quality]
    other than [quality[c,a]] as it was, and both arrays keep the shape
    (numContexts, numArms). *)
Theorem update_params_frame bandits arms s context action reward :
  wf bandits arms s ->
  (0 <= context < Z.of_nat bandits)%Z -> (0 <= action < Z.of_nat arms)%Z ->
  exists s',
    UCB.update_params context action reward s = Ok tt s' /\
    entry (UCB._counts s') (Z.to_nat context) (Z.to_nat action)
      = entry (UCB._counts s) (Z.to_nat context) (Z.to_nat action) + 1 /\
    (forall i j, (i, j) <> (Z.to_nat context, Z.to_nat action) ->
       entry (UCB._counts s') i j = entry (UCB._counts s) i j) /\
    (forall i j, (i, j) <> (Z.to_nat context, Z.to_nat action) ->
       entry (UCB._quality s') i j = entry (UCB._quality s) i j) /\
    shaped bandits arms (UCB._quality s') /\
    shaped bandits arms (UCB._counts s').
Proof.
  intros (Hq & Hn & _) Hc Ha.
  destruct (update_params_inside bandits arms s context action reward
              (Z.to_nat context) (Z.to_nat action) Hq Hn)
    as (row & m & _ & _ & Hrun); [by apply np_index_nonneg..|].
  eexists. split; [exact Hrun|]. unfold updated. simpl.
  split; [apply (entry_update2_eq bandits arms); [done|lia..]|].
  split; [intros i j Hne; by apply entry_update2_ne|].
  split; [intros i j Hne; by apply entry_update2_ne|].
  split; by apply shaped_update2.
Qed.

Lemma update_params_frame_witness :
  wf 2 2 (UCB.__init__ 2 2 1) /\ (0 <= 1 < Z.of_nat 2)%Z /\ (0 <= 0 < Z.of_nat 2)%Z /\
  exists s', UCB.update_params 1 0 3 (UCB.__init__ 2 2 1) = Ok tt s' /\
             entry (UCB._counts s') (Z.to_nat 1) (Z.to_nat 0)
               = entry (UCB._counts (UCB.__init__ 2 2 1)) (Z.to_nat 1) (Z.to_nat 0) + 1.
Proof.
  split; [apply wf_init|]. split; [lia|]. split; [lia|].
  destruct (update_params_frame 2 2 (UCB.__init__ 2 2 1) 1 0 3)
    as (s' & Hrun & Hcount & _); [apply wf_init|lia|lia|].
  exists s'. split; [exact Hrun|exact Hcount].
Defined.

(** * C10: what [select_action] leaves alone *)

(** C10.  Whatever the state and the arguments, and whether the call
    returns or raises, [select_action(c, t)] leaves quality, counts,
    cumulative regret, reward history, regret history and confidence as
    they were.  The action history is as before when the call raises, and
    is the old one followed by the single pair [(c, a)] when the call
    returns [a].  The call returns in a well-formed policy with at least
    one arm, for a context [c] inside the shape and a timestep that
    [np.log] accepts ([-2**63 <= t + 1 < 2**64]). *)
Theorem select_action_frame bandits arms s context t :
  (UCB._quality (state_of (UCB.select_action context t s)) = UCB._quality s /\
   UCB._counts (state_of (UCB.select_action context t s)) = UCB._counts s /\
   UCB._regret (state_of (UCB.select_action context t s)) = UCB._regret s /\
   UCB._reward_hist (state_of (UCB.select_action context t s)) = UCB._reward_hist s /\
   UCB._regret_hist (state_of (UCB.select_action context t s)) = UCB._regret_hist s /\
   UCB._c (state_of (UCB.select_action context t s)) = UCB._c s) /\
  (forall e s',
     UCB.select_action context t s = Raise e s' ->
     UCB._action_hist s' = UCB._action_hist s) /\
  (forall a s',
     UCB.select_action context t s = Ok a s' ->
     UCB._action_hist s' = UCB._action_hist s ++ [(context, a)]) /\
  (wf bandits arms s -> (0 < arms)%nat ->
   (0 <= context < Z.of_nat bandits)%Z ->
   (- 2 ^ 63 <= t + 1 < 2 ^ 64)%Z ->
   exists a s',
     UCB.select_action context t s = Ok a s' /\
     UCB._action_hist s' = UCB._action_hist s ++ [(context, a)]).
Proof.
  split; [|split; [|split]].
  - destruct (select_action_cases context t s) as [[e ->]|[a ->]]; done.
  - intros e s' Hrun.
    destruct (select_action_cases context t s) as [[e0 Hraise]|[a Hok]];
      rewrite Hrun in *; [by injection Hraise as _ ->|done].
  - intros a s' Hrun.
    destruct (select_action_cases context t s) as [[e0 Hraise]|[a0 Hok]];
      rewrite Hrun in *; [done|]. injection Hok as -> ->. done.
  - intros Hwf Harms Hc Ht.
    destruct (select_action_returns bandits arms s context t (Z.to_nat context)
                Hwf Harms (np_index_nonneg _ _ Hc)) as (a & Hrun).
    { by apply np_log_Some_range. }
    exists a. eexists. split; [exact Hrun|done].
Qed.

Lemma select_action_frame_witness :
  wf 2 3 UCBExample.visited /\ (0 < 3)%nat /\ (0 <= 1 < Z.of_nat 2)%Z /\
  (- 2 ^ 63 <= 7 + 1 < 2 ^ 64)%Z /\
  exists a s', UCB.select_action 1 7 UCBExample.visited = Ok a s' /\
               UCB._action_hist s' = UCB._action_hist UCBExample.visited ++ [(1%Z, a)].
Proof.
  split; [apply wf_visited|]. split; [lia|]. split; [lia|]. split; [lia|].
  apply (select_action_frame 2 3 UCBExample.visited 1 7); [apply wf_visited|lia..].
Defined.

(** * C6: the cumulative regret never decreases *)

Lemma non_decreasing_snoc (xs : list R) (r : R) :
  non_decreasing xs -> (forall x, x ∈ xs -> x <= r) -> non_decreasing (xs ++ [r]).
Proof.
  intros Hxs Hr i j x y Hij Hi Hj.
  destruct (decide (j < length xs)%nat) as [Hjl|Hjl].
  - rewrite lookup_app_l in Hi by lia. rewrite lookup_app_l in Hj by lia. eauto.
  - assert (j = length xs) as ->.
    { apply lookup_lt_Some in Hj. rewrite length_app in Hj. simpl in Hj. lia. }
    rewrite list_lookup_middle in Hj by done. injection Hj as <-.
    destruct (decide (i < length xs)%nat) as [Hil|Hil].
    + rewrite lookup_app_l in Hi by lia. apply Hr, list_elem_of_lookup. eauto.
    + assert (i = length xs) as -> by lia.
      rewrite list_lookup_middle in Hi by done. injection Hi as <-. lra.
Qed.

Lemma regret_ordered_exec k s : regret_ordered s -> regret_ordered (exec k s).
Proof.
  intros [Hnd Hbound]. destruct k as [context t|context action reward]; simpl.
  - destruct (select_action_cases context t s) as [[e ->]|[a ->]]; done.
  - destruct (update_params_regret context action reward s)
      as (d & Hd & Hreg & [[Hhist _]|Hhist]);
      unfold regret_ordered; rewrite Hreg, Hhist.
    + split; [done|]. intros x Hx. specialize (Hbound x Hx). lra.
    + split.
      * apply non_decreasing_snoc; [done|].
        intros x Hx. specialize (Hbound x Hx). lra.
      * intros x [Hx|Hx]%elem_of_app.
        -- specialize (Hbound x Hx). lra.
        -- apply list_elem_of_singleton in Hx as ->. lra.
Qed.

Lemma regret_ordered_run calls s : regret_ordered s -> regret_ordered (run calls s).
Proof.
  revert s. induction calls as [|k calls IH]; intros s Hs; [done|].
  simpl. apply IH. by apply regret_ordered_exec.
Qed.

(** C6.  Whatever the state and the arguments, and whether the call
    returns or raises, the cumulative regret after a call of
    [update_params] is at least the regret before it; and after any
    sequence of calls on a freshly constructed policy the regret history
    is a non-decreasing sequence. *)
Theorem regret_non_decreasing :
  (forall s context action reward,
     UCB._regret s <= UCB._regret (state_of (UCB.update_params context action reward s)))
  /\
  (forall bandits arms confidence calls,
     non_decreasing (UCB._regret_hist (run calls (UCB.__init__ bandits arms confidence)))).
Proof.
  split.
  - intros s context action reward.
    destruct (update_params_regret context action reward s) as (d & Hd & -> & _). lra.
  - intros bandits arms confidence calls.
    apply (regret_ordered_run calls (UCB.__init__ bandits arms confidence)).
    split.
    + intros i j x y _ Hi. simpl in Hi. by rewrite lookup_nil in Hi.
    + intros x Hx. simpl in Hx. by apply elem_of_nil in Hx.
Qed.

(** * C5: the quality of a pair is the mean of its rewards *)

Lemma run_snoc calls k s : run (calls ++ [k]) s = exec k (run calls s).
Proof. unfold run. by rewrite foldl_app. Qed.

Lemma rewards_at_app bandits arms c a calls1 calls2 :
  rewards_at bandits arms c a (calls1 ++ calls2)
  = rewards_at bandits arms c a calls1 ++ rewards_at bandits arms c a calls2.
Proof.
  induction calls1 as [|[context t|context action reward] calls1 IH]; simpl; [done|done|].
  destruct (addresses _ _ _ _ _ _); simpl; by rewrite IH.
Qed.

Lemma total_snoc rs r : total (rs ++ [r]) = total rs + r.
Proof. unfold total. induction rs as [|x rs IH]; simpl; [lra|]. rewrite IH. lra. Qed.

(** One step of the running mean: if [q] is the mean of [k] rewards of
    sum [t], the updated [q] is the mean of the [k + 1] rewards. *)
Lemma incremental_mean_step (q t r : R) (k : nat) :
  q * INR k = t ->
  (q + (r - q) / (INR k + 1)) * INR (S k) = t + r.
Proof.
  intros Hq. rewrite S_INR. pose proof (pos_INR k).
  subst t. field. lra.
Qed.

(** What one call does to entry [(c, a)] of both arrays. *)
Lemma exec_entry bandits arms s k c a :
  wf bandits arms s ->
  match rewards_at bandits arms c a [k] with
  | [] =>
      entry (UCB._counts (exec k s)) c a = entry (UCB._counts s) c a /\
      entry (UCB._quality (exec k s)) c a = entry (UCB._quality s) c a
  | r :: _ =>
      entry (UCB._counts (exec k s)) c a = entry (UCB._counts s) c a + 1 /\
      entry (UCB._quality (exec k s)) c a
        = entry (UCB._quality s) c a
          + (r - entry (UCB._quality s) c a) / (entry (UCB._counts s) c a + 1)
  end.
Proof.
  intros (Hq & Hn & Hpos). destruct k as [context t|context action reward]; simpl.
  - destruct (select_action_cases context t s) as [[e ->]|[x ->]]; done.
  - unfold addresses.
    destruct (np_index bandits context) as [i|] eqn:Hi;
      [destruct (np_index arms action) as [j|] eqn:Hj|].
    + destruct (update_params_inside _ _ s context action reward i j Hq Hn Hi Hj)
        as (row & m & _ & _ & ->). simpl.
      case_bool_decide as Haddr.
      * destruct Haddr as [[= <-] [= <-]].
        apply np_index_lt in Hi, Hj.
        split; by apply (entry_update2_eq bandits arms).
      * split; apply entry_update2_ne; intros [= -> ->]; by apply Haddr.
    + destruct (update_params_outside _ _ s context action reward Hq) as [e ->]; [by right|].
      case_bool_decide as Haddr; [by destruct Haddr|done].
    + destruct (update_params_outside _ _ s context action reward Hq) as [e ->]; [by left|].
      case_bool_decide as Haddr; [by destruct Haddr|done].
Qed.

Lemma rewards_at_single bandits arms c a k :
  rewards_at bandits arms c a [k] = [] \/
  exists r, rewards_at bandits arms c a [k] = [r].
Proof.
  destruct k as [context t|context action reward]; simpl; [by left|].
  destruct (addresses _ _ _ _ _ _); [right; by eexists|by left].
Qed.

(** After any sequence of calls on a fresh policy, [counts[c,a]] is the
    number of rewards given to the pair and [quality[c,a]] times that
    number is their sum. *)
Lemma run_counts_quality bandits arms confidence calls c a :
  let s := run calls (UCB.__init__ bandits arms confidence) in
  let rs := rewards_at bandits arms c a calls in
  entry (UCB._counts s) c a = INR (length rs) /\
  entry (UCB._quality s) c a * INR (length rs) = total rs.
Proof.
  induction calls as [|k calls IH] using rev_ind; simpl.
  - unfold UCB.__init__. simpl. rewrite !entry_zeros. unfold total. simpl. split; lra.
  - simpl in IH. destruct IH as [IHn IHq].
    rewrite run_snoc, rewards_at_app.
    pose proof (exec_entry bandits arms
                  (run calls (UCB.__init__ bandits arms confidence)) k c a
                  (wf_run _ _ _ _ (wf_init _ _ _))) as Hstep.
    destruct (rewards_at_single bandits arms c a k) as [Hk|[r Hk]];
      rewrite Hk in Hstep |- *; destruct Hstep as [Hn Hq]; rewrite Hn, Hq.
    + by rewrite app_nil_r.
    + rewrite length_app, total_snoc. simpl. rewrite Nat.add_1_r.
      split; [rewrite S_INR; lra|].
      rewrite IHn. by apply incremental_mean_step.
Qed.

(** C5.  On a freshly constructed policy (quality and counts all zero),
    after any sequence of calls, [counts[c,a]] is the number [k] of
    updates of the pair [(c, a)] and, when [k >= 1], [quality[c,a]] is the
    arithmetic mean of the rewards [r_1..r_k] of those updates, however
    they are interleaved with updates of other pairs (and with calls that
    select an action or raise). *)
Theorem quality_is_mean bandits arms confidence calls c a :
  entry (UCB._counts (run calls (UCB.__init__ bandits arms confidence))) c a
    = INR (length (rewards_at bandits arms c a calls)) /\
  (rewards_at bandits arms c a calls <> [] ->
   entry (UCB._quality (run calls (UCB.__init__ bandits arms confidence))) c a
     = mean (rewards_at bandits arms c a calls)).
Proof.
  destruct (run_counts_quality bandits arms confidence calls c a) as [Hn Hq].
  split; [done|]. intros Hne. unfold mean. rewrite <- Hq.
  assert (0 < INR (length (rewards_at bandits arms c a calls))).
  { apply lt_0_INR. destruct (rewards_at bandits arms c a calls); [done|simpl; lia]. }
  field. lra.
Qed.

Lemma quality_is_mean_witness :
  rewards_at 1 2 0 0 [UpdateParams 0 0 4; UpdateParams 0 1 9; UpdateParams (-1) 0 6] <> [] /\
  entry (UCB._quality
           (run [UpdateParams 0 0 4; UpdateParams 0 1 9; UpdateParams (-1) 0 6]
                (UCB.__init__ 1 2 1))) 0 0
    = mean (rewards_at 1 2 0 0
              [UpdateParams 0 0 4; UpdateParams 0 1 9; UpdateParams (-1) 0 6]).
Proof.
  split; [simpl; discriminate|].
  apply (quality_is_mean 1 2 1). simpl. discriminate.
Defined.

(** * C9: the two-update scenario *)

Ltac run_update :=
  unfold UCB.update_params, UCB.reward_hist_append, UCB.regret_hist_append,
    UCB.quality, UCB.counts, UCB.regret, bind, gets, modify; simpl;
  repeat match goal with
         | |- context [Rlt_dec ?x ?y] => destruct (Rlt_dec x y); try lra
         end;
  simpl.

Ltac same_numbers :=
  repeat f_equal; try lra; try (field; lra).

(** The policy of the scenario after its first and after its second
    update. *)
Lemma scenario_first_update :
  UCB.update_params 0 0 1 (UCB.__init__ 1 2 1)
  = Ok tt (UCB.mkUCBCBPolicy 1 [[1; 0]] [[1; 0]] 0 [] [1] [0]).
Proof. run_update. unfold UCB.set_counts. simpl. same_numbers. Qed.

Lemma scenario_second_update :
  UCB.update_params 0 1 0 (UCB.mkUCBCBPolicy 1 [[1; 0]] [[1; 0]] 0 [] [1] [0])
  = Ok tt (UCB.mkUCBCBPolicy 1 [[1; 0]] [[1; 1]] 1 [] [1; 0] [0; 1]).
Proof. run_update. unfold UCB.set_counts. simpl. same_numbers. Qed.

(** C9.  On a fresh policy with numContexts = 1, numArms = 2 and
    confidence 1.0, [update_params(0, 0, 1.0)] returns and leaves the
    cumulative regret at 0 (a regret delta of 0); [update_params(0, 1, 0.0)]
    then returns and leaves quality = [[1.0, 0.0]], counts = [[1, 1]] and
    cumulative regret 1.0. *)
Theorem scenario_two_updates :
  exists s1 s2,
    UCB.update_params 0 0 1 (UCB.__init__ 1 2 1) = Ok tt s1 /\
    UCB.update_params 0 1 0 s1 = Ok tt s2 /\
    UCB._regret s1 - UCB._regret (UCB.__init__ 1 2 1) = 0 /\
    UCB._quality s2 = [[1; 0]] /\
    UCB._counts s2 = [[1; 1]] /\
    UCB._regret s2 = 1.
Proof.
  eexists _, _. split; [apply scenario_first_update|].
  split; [apply scenario_second_update|]. simpl.
  split; [lra|]. done.
Qed.

(** * C8: the widths of the network [_get_val_model] builds *)

Lemma output_width_snoc sizes w : Values.output_width (sizes ++ [w]) = w.
Proof. unfold Values.output_width. by rewrite last_snoc. Qed.

(** C8.  Whatever the architecture [arch], [_get_val_model] hands it a
    list of layer widths and returns the network it builds: for "V"
    (StateValue) the first width is [state_dim] and the last is 1; for
    "Qsa" (StateActionValue) the first is [state_dim + action_dim] and the
    last is 1; for "Qs" (ActionValueVector) the first is [state_dim] and
    the last is [action_dim].  For a [val_type] that is none of the three
    tags it raises [ValueError] and returns no network. *)
Theorem get_val_model_widths (Net : Type) (arch : list (option Z) -> string -> Net)
    (state_dim : Z) (hidden : list Z) (activation : string) :
  (forall action_dim, exists sizes,
     Values._get_val_model Net arch (Values.tag Values.StateValue)
       state_dim hidden action_dim activation
     = Values.Returned (arch sizes activation) /\
     Values.input_width sizes = Some state_dim /\
     Values.output_width sizes = Some 1%Z) /\
  (forall action_dim, exists sizes,
     Values._get_val_model Net arch (Values.tag Values.StateActionValue)
       state_dim hidden (Some action_dim) activation
     = Values.Returned (arch sizes activation) /\
     Values.input_width sizes = Some (state_dim + action_dim)%Z /\
     Values.output_width sizes = Some 1%Z) /\
  (forall action_dim, exists sizes,
     Values._get_val_model Net arch (Values.tag Values.ActionValueVector)
       state_dim hidden (Some action_dim) activation
     = Values.Returned (arch sizes activation) /\
     Values.input_width sizes = Some state_dim /\
     Values.output_width sizes = Some action_dim) /\
  (forall val_type action_dim,
     (forall kind, val_type <> Values.tag kind) ->
     Values._get_val_model Net arch val_type state_dim hidden action_dim activation
     = Values.Raised ValueError).
Proof.
  repeat split.
  - intros action_dim. eexists. split; [reflexivity|]. split; [done|].
    by rewrite app_assoc, output_width_snoc.
  - intros action_dim. eexists. split; [reflexivity|]. split; [done|].
    by rewrite app_assoc, output_width_snoc.
  - intros action_dim. eexists. split; [reflexivity|]. split; [done|].
    by rewrite app_assoc, output_width_snoc.
  - intros val_type action_dim Hother. unfold Values._get_val_model.
    destruct (String.eqb_spec val_type "V") as [->|_];
      [by destruct (Hother Values.StateValue)|].
    destruct (String.eqb_spec val_type "Qsa") as [->|_];
      [by destruct (Hother Values.StateActionValue)|].
    destruct (String.eqb_spec val_type "Qs") as [->|_];
      [by destruct (Hother Values.ActionValueVector)|].
    done.
Qed.

Lemma get_val_model_widths_witness :
  (forall kind, "Q"%string <> Values.tag kind) /\
  Values._get_val_model (list (option Z) * string) pair "Q" 4 [32; 32]%Z (Some 2%Z) "relu"
  = Values.Raised ValueError.
Proof.
  assert (forall kind, "Q"%string <> Values.tag kind) as Hother
    by (intros []; discriminate).
  split; [exact Hother|].
  destruct (get_val_model_widths (list (option Z) * string) pair 4 [32; 32]%Z "relu")
    as (_ & _ & _ & Herr).
  apply Herr. exact Hother.
Defined.

(** * C3: the losses of one minibatch *)

Import A2CSpec.

Lemma big_sum_ext n f g :
  (forall i, (i < n)%nat -> f i = g i) -> big_sum n f = big_sum n g.
Proof.
  induction n as [|n IH]; intros Hfg; simpl; [done|].
  rewrite IH by (intros i Hi; apply Hfg; lia). rewrite Hfg by lia. done.
Qed.

Lemma big_sum_zero n f : (forall i, (i < n)%nat -> f i = 0) -> big_sum n f = 0.
Proof.
  induction n as [|n IH]; intros Hf; simpl; [done|].
  rewrite IH by (intros i Hi; apply Hf; lia). rewrite Hf by lia. lra.
Qed.

Lemma torch_sum_snoc xs x : A2C.torch_sum (xs ++ [x]) = A2C.torch_sum xs + x.
Proof.
  unfold A2C.torch_sum. induction xs as [|y xs IH]; simpl; [lra|]. rewrite IH. lra.
Qed.

Lemma torch_sum_big_sum xs : A2C.torch_sum xs = big_sum (length xs) (at_ xs).
Proof.
  induction xs as [|x xs IH] using rev_ind; [done|].
  rewrite torch_sum_snoc, length_app, Nat.add_1_r. simpl.
  rewrite IH. f_equal.
  - apply big_sum_ext. intros i Hi. unfold at_. by rewrite lookup_app_l.
  - unfold at_. by rewrite list_lookup_middle.
Qed.

Lemma at_zip_with f xs ys i :
  (i < length xs)%nat -> (i < length ys)%nat ->
  at_ (zip_with f xs ys) i = f (at_ xs i) (at_ ys i).
Proof.
  intros Hx Hy. unfold at_. rewrite lookup_zip_with.
  destruct (lookup_lt_is_Some_2 xs i Hx) as [x ->].
  destruct (lookup_lt_is_Some_2 ys i Hy) as [y ->]. done.
Qed.

Lemma at_map f xs i : (i < length xs)%nat -> at_ (map f xs) i = f (at_ xs i).
Proof.
  intros Hx. unfold at_. rewrite map_lookup.
  destruct (lookup_lt_is_Some_2 xs i Hx) as [x ->]. done.
Qed.

Lemma torch_mean_mul adv lp :
  length lp = length adv ->
  - A2C.torch_mean (A2C.torch_mul adv lp) = policy_loss adv lp.
Proof.
  intros Hlen. unfold A2C.torch_mean, A2C.torch_mul, policy_loss.
  rewrite torch_sum_big_sum, length_zip_with, Hlen, Nat.min_id.
  do 2 f_equal. apply big_sum_ext. intros i Hi. apply at_zip_with; lia.
Qed.

Lemma mse_loss_spec ret value :
  length value = length ret ->
  A2C.mse_loss ret value = mean_squared_error ret value.
Proof.
  intros Hlen. unfold A2C.mse_loss, A2C.torch_mean, mean_squared_error.
  rewrite torch_sum_big_sum, length_zip_with, Hlen, Nat.min_id.
  f_equal. apply big_sum_ext. intros i Hi.
  rewrite at_zip_with by lia. ring.
Qed.

Lemma entropy_spec lp :
  A2C.torch_sum (A2C.torch_mul (A2C.torch_exp lp) lp) = entropy_loss lp.
Proof.
  unfold A2C.torch_mul, A2C.torch_exp, entropy_loss.
  rewrite torch_sum_big_sum, length_zip_with, length_map, Nat.min_id.
  apply big_sum_ext. intros i Hi.
  rewrite at_zip_with by (rewrite ?length_map; lia). by rewrite at_map.
Qed.

Lemma torch_mean_scalar x : A2C.torch_mean [x] = x.
Proof. unfold A2C.torch_mean, A2C.torch_sum. simpl. field. Qed.

Lemma policy_loss_zero adv lp :
  Forall (fun x => x = 0) adv -> policy_loss adv lp = 0.
Proof.
  intros Hz. unfold policy_loss. rewrite big_sum_zero.
  - unfold Rdiv. lra.
  - intros i Hi. destruct (lookup_lt_is_Some_2 adv i Hi) as [x Hx].
    unfold at_ at 1. rewrite Hx. simpl.
    rewrite (Forall_lookup_1 _ _ _ _ Hz Hx). lra.
Qed.

Section MinibatchLosses.

Variables Obs Act Dist Params Opt Rng : Type.
Variable actor_forward : Params -> Obs -> Dist.
Variable critic_forward : Params -> Obs -> list R.
Variable dist_sample : Dist -> Rng -> Act * Rng.
Variable dist_mode : Dist -> Act.
Variable dist_log_prob : Dist -> Act -> list R.
Variable long_flatten : Act -> Act.
Variable step_policy : R -> Params * Opt -> Params * Opt.
Variable step_value : R -> Params * Opt -> Params * Opt.

(** The outcome of one iteration of the loop of [update_policy], in the
    terms of the specification. *)
Lemma update_minibatch_run (self : A2C.A2C Params Opt Rng)
    (rollout : A2C.RolloutBufferSamples Obs Act) (pl vl pe : list R) :
  let acts := if A2C.discrete _ _ _ self
              then long_flatten (A2C.actions rollout) else A2C.actions rollout in
  let log_prob :=
    dist_log_prob (actor_forward (A2C.ac _ _ _ self) (A2C.observations rollout)) acts in
  let value := critic_forward (A2C.ac _ _ _ self) (A2C.observations rollout) in
  let advantage := A2C.advantages rollout in
  let returns := A2C.returns rollout in
  let vc := A2C.value_coeff _ _ _ self in
  let ec := A2C.entropy_coeff _ _ _ self in
  length log_prob = length advantage ->
  length value = length returns ->
  A2C.logs _ _ _ self !! "policy_loss" = Some pl ->
  A2C.logs _ _ _ self !! "value_loss" = Some vl ->
  A2C.logs _ _ _ self !! "policy_entropy" = Some pe ->
  exists self',
    A2C.update_minibatch Obs Act Dist Params Opt Rng actor_forward critic_forward
      dist_sample dist_mode dist_log_prob long_flatten step_policy step_value
      rollout self = Ok tt self' /\
    A2C.logs _ _ _ self' !! "policy_loss" = Some (pl ++ [policy_loss advantage log_prob]) /\
    A2C.logs _ _ _ self' !! "value_loss" = Some (vl ++ [value_loss vc returns value]) /\
    A2C.logs _ _ _ self' !! "policy_entropy" = Some (pe ++ [entropy_loss log_prob]) /\
    (let actor_step :=
       step_policy (actor_objective ec advantage log_prob)
         (A2C.ac _ _ _ self, A2C.optimizer_policy _ _ _ self) in
     let critic_step :=
       step_value (value_loss vc returns value)
         (fst actor_step, A2C.optimizer_value _ _ _ self) in
     A2C.ac _ _ _ self' = fst critic_step /\
     A2C.optimizer_policy _ _ _ self' = snd actor_step /\
     A2C.optimizer_value _ _ _ self' = snd critic_step).
Proof.
  intros acts log_prob value advantage returns vc ec Hlp Hval Hpl Hvl Hpe.
  unfold A2C.update_minibatch, A2C.get_value_log_probs,
    A2C.ac_get_action, A2C.ac_get_value, A2C.logs_append, bind, gets, modify, ret.
  simpl.
  fold acts. fold value. fold log_prob. fold advantage. fold returns.
  rewrite Hpl. simpl.
  rewrite lookup_insert_ne by done. rewrite Hvl. simpl.
  rewrite !lookup_insert_ne by done. rewrite Hpe. simpl.
  eexists. split; [reflexivity|]. simpl.
  rewrite (torch_mean_mul advantage log_prob Hlp).
  rewrite (mse_loss_spec _ value Hval).
  rewrite torch_mean_scalar, entropy_spec.
  split; [by rewrite !lookup_insert_ne, lookup_insert_eq by done|].
  split; [by rewrite lookup_insert_ne, lookup_insert_eq by done|].
  split; [by rewrite lookup_insert_eq|].
  done.
Qed.

(** C3.  One iteration of the loop of [update_policy], on a minibatch
    of [n >= 1] samples whose advantages, returns, re-evaluated values
    and re-evaluated log-probabilities all have length [n], with the
    three log lists present: the iteration returns; the value appended
    to [logs["policy_loss"]] is [-mean(advantage * log_prob)], the one
    appended to [logs["value_loss"]] is
    [valueCoeff * meanSquaredError(return, value)], the one appended to
    [logs["policy_entropy"]] is [sum(exp(log_prob) * log_prob)]; the
    loss the actor's optimizer steps on is
    [policy loss + entropyCoeff * entropy loss] and the loss the
    critic's optimizer steps on is the value loss; and when every
    advantage is zero the policy loss is 0 whatever the
    log-probabilities. *)
Theorem update_minibatch_losses (self : A2C.A2C Params Opt Rng)
    (rollout : A2C.RolloutBufferSamples Obs Act) (pl vl pe : list R) :
  let acts := if A2C.discrete _ _ _ self
              then long_flatten (A2C.actions rollout) else A2C.actions rollout in
  let log_prob :=
    dist_log_prob (actor_forward (A2C.ac _ _ _ self) (A2C.observations rollout)) acts in
  let value := critic_forward (A2C.ac _ _ _ self) (A2C.observations rollout) in
  let advantage := A2C.advantages rollout in
  let returns := A2C.returns rollout in
  let vc := A2C.value_coeff _ _ _ self in
  let ec := A2C.entropy_coeff _ _ _ self in
  (0 < length advantage)%nat ->
  length log_prob = length advantage ->
  length value = length returns ->
  A2C.logs _ _ _ self !! "policy_loss" = Some pl ->
  A2C.logs _ _ _ self !! "value_loss" = Some vl ->
  A2C.logs _ _ _ self !! "policy_entropy" = Some pe ->
  exists self',
    A2C.update_minibatch Obs Act Dist Params Opt Rng actor_forward critic_forward
      dist_sample dist_mode dist_log_prob long_flatten step_policy step_value
      rollout self = Ok tt self' /\
    A2C.logs _ _ _ self' !! "policy_loss" = Some (pl ++ [policy_loss advantage log_prob]) /\
    A2C.logs _ _ _ self' !! "value_loss" = Some (vl ++ [value_loss vc returns value]) /\
    A2C.logs _ _ _ self' !! "policy_entropy" = Some (pe ++ [entropy_loss log_prob]) /\
    (let actor_step :=
       step_policy (actor_objective ec advantage log_prob)
         (A2C.ac _ _ _ self, A2C.optimizer_policy _ _ _ self) in
     let critic_step :=
       step_value (value_loss vc returns value)
         (fst actor_step, A2C.optimizer_value _ _ _ self) in
     A2C.ac _ _ _ self' = fst critic_step /\
     A2C.optimizer_policy _ _ _ self' = snd actor_step /\
     A2C.optimizer_value _ _ _ self' = snd critic_step) /\
    (Forall (fun x => x = 0) advantage -> policy_loss advantage log_prob = 0).
Proof.
  intros acts log_prob value advantage returns vc ec _ Hlp Hval Hpl Hvl Hpe.
  destruct (update_minibatch_run self rollout pl vl pe Hlp Hval Hpl Hvl Hpe)
    as (self' & Hrun & Hpl' & Hvl' & Hpe' & Hsteps).
  exists self'. repeat (split; [assumption|]).
  apply policy_loss_zero.
Qed.

End MinibatchLosses.

Lemma update_minibatch_losses_witness :
  exists self',
    Coin.update_minibatch Coin.minibatch Coin.agent_with_logs = Ok tt self' /\
    A2C.logs _ _ _ self' !! "policy_loss"
      = Some ([] ++ [policy_loss [2] (Coin.dist_log_prob (3 / 4) true)]) /\
    (Forall (fun x => x = 0) [2] -> policy_loss [2] (Coin.dist_log_prob (3 / 4) true) = 0).
Proof.
  destruct (update_minibatch_losses
              Coin.Obs Coin.Act Coin.Dist Coin.Params Coin.Opt Coin.Rng
              Coin.actor_forward Coin.critic_forward Coin.dist_sample Coin.dist_mode
              Coin.dist_log_prob (fun a => a) Coin.no_step Coin.no_step
              Coin.agent_with_logs Coin.minibatch [] [] [])
    as (self' & Hrun & Hpl & _ & _ & _ & Hzero).
  - simpl. lia.
  - reflexivity.
  - reflexivity.
  - simpl. by rewrite !lookup_insert_ne, lookup_insert_eq by done.
  - simpl. by rewrite lookup_insert_ne, lookup_insert_eq by done.
  - simpl. by rewrite lookup_insert_eq.
  - exists self'. split; [exact Hrun|]. split; [exact Hpl|exact Hzero].
Defined.

(** * C4: [select_action] and its [deterministic] argument *)

(** Whatever is passed for [deterministic], [select_action] does what it
    does for [False]: the argument is not used. *)
Lemma select_action_ignores_deterministic
    (Obs Act Dist Params Opt Rng : Type)
    (actor_forward : Params -> Obs -> Dist) (critic_forward : Params -> Obs -> list R)
    (dist_sample : Dist -> Rng -> Act * Rng) (dist_mode : Dist -> Act)
    (dist_log_prob : Dist -> Act -> list R) (state : Obs) (deterministic : bool) :
  A2C.select_action Obs Act Dist Params Opt Rng actor_forward critic_forward
    dist_sample dist_mode dist_log_prob state deterministic
  = A2C.select_action Obs Act Dist Params Opt Rng actor_forward critic_forward
      dist_sample dist_mode dist_log_prob state false.
Proof. reflexivity. Qed.

(** C4, on the code.  For the coin agent (probability 3/4 of [true], next
    draw 0.9), [select_action(state, deterministic=True)] returns the
    sampled action [false] with its log-probability [ln(1 - 3/4)] and
    consumes the draw, where the behaviour claimed for
    [deterministic=True] is the mode [true] with log-probability
    [ln(3/4)] and no draw. *)
Theorem select_action_deterministic_samples :
  Coin.select_action tt true Coin.agent
    = Ok (false, [0], [ln (1 - 3 / 4)]) (A2C.set_rng _ _ _ [] Coin.agent) /\
  Coin.select_action_claimed tt true Coin.agent
    = Ok (true, [0], [ln (3 / 4)]) Coin.agent /\
  Coin.select_action tt true Coin.agent <> Coin.select_action_claimed tt true Coin.agent.
Proof.
  assert (Coin.select_action tt true Coin.agent
          = Ok (false, [0], [ln (1 - 3 / 4)]) (A2C.set_rng _ _ _ [] Coin.agent)) as Hcode.
  { unfold Coin.select_action, A2C.select_action, A2C.ac_get_action, A2C.ac_get_value,
      bind, gets, modify, ret. simpl.
    unfold Coin.actor_forward, Coin.dist_log_prob.
    destruct (Rlt_dec (9 / 10) (3 / 4)); [lra|]. done. }
  assert (Coin.select_action_claimed tt true Coin.agent
          = Ok (true, [0], [ln (3 / 4)]) Coin.agent) as Hclaimed.
  { unfold Coin.select_action_claimed, select_action_claimed, A2C.ac_get_action,
      A2C.ac_get_value, bind, gets, modify, ret. simpl.
    unfold Coin.actor_forward, Coin.dist_mode, Coin.dist_log_prob.
    destruct (Rlt_dec (1 / 2) (3 / 4)); [|lra]. done. }
  split; [exact Hcode|]. split; [exact Hclaimed|].
  rewrite Hcode, Hclaimed. intros [= ]. 
Qed.

(** ** Every iteration of the loop *)

Section UpdatePolicy.

Variables Obs Act Dist Params Opt Rng : Type.
Variable actor_forward : Params -> Obs -> Dist.
Variable critic_forward : Params -> Obs -> list R.
Variable dist_sample : Dist -> Rng -> Act * Rng.
Variable dist_mode : Dist -> Act.
Variable dist_log_prob : Dist -> Act -> list R.
Variable long_flatten : Act -> Act.
Variable step_policy : R -> Params * Opt -> Params * Opt.
Variable step_value : R -> Params * Opt -> Params * Opt.

(** [empty_logs] establishes what the first iteration needs. *)
Lemma empty_logs_filled (self : A2C.A2C Params Opt Rng) :
  logs_filled Params Opt Rng 0 (state_of (A2C.empty_logs Params Opt Rng self)).
Proof.
  intros key Hkey. simpl.
  repeat (apply elem_of_cons in Hkey as [->|Hkey]);
    [| | |by apply elem_of_nil in Hkey]; exists [].
  - by rewrite !lookup_insert_ne, lookup_insert_eq by done.
  - by rewrite lookup_insert_ne, lookup_insert_eq by done.
  - by rewrite lookup_insert_eq.
Qed.

(** Each iteration returns and adds one entry to each of the three lists,
    so the next iteration finds them again. *)
Lemma update_minibatch_filled (self : A2C.A2C Params Opt Rng) rollout n :
  minibatch_ok Obs Act Dist Params actor_forward critic_forward dist_log_prob rollout ->
  logs_filled Params Opt Rng n self ->
  exists self',
    A2C.update_minibatch Obs Act Dist Params Opt Rng actor_forward critic_forward
      dist_sample dist_mode dist_log_prob long_flatten step_policy step_value
      rollout self = Ok tt self' /\
    logs_filled Params Opt Rng (S n) self'.
Proof.
  intros [Hn Hlen] Hlogs.
  destruct (Hlogs "policy_loss"%string) as (pl & Hpl & Hlpl);
    [apply elem_of_cons; by left|].
  destruct (Hlogs "value_loss"%string) as (vl & Hvl & Hlvl);
    [apply elem_of_cons; right; apply elem_of_cons; by left|].
  destruct (Hlogs "policy_entropy"%string) as (pe & Hpe & Hlpe);
    [do 2 (apply elem_of_cons; right); apply elem_of_cons; by left|].
  pose proof (update_minibatch_run Obs Act Dist Params Opt Rng actor_forward
                critic_forward dist_sample dist_mode dist_log_prob long_flatten
                step_policy step_value self rollout pl vl pe) as Hstep.
  cbv zeta in Hstep.
  destruct (Hstep (proj1 (Hlen _ _)) (proj2 (Hlen _ (A2C.actions rollout))) Hpl Hvl Hpe)
    as (self' & Hrun & Hpl' & Hvl' & Hpe' & _).
  exists self'. split; [exact Hrun|].
  intros key Hkey.
  repeat (apply elem_of_cons in Hkey as [->|Hkey]);
    [| | |by apply elem_of_nil in Hkey]; eexists; (split; [eassumption|]);
    rewrite length_app; simpl; lia.
Qed.

(** [update_policy] over minibatches that meet the contract returns, and
    has logged one value per minibatch in each list. *)
Lemma update_policy_returns (self : A2C.A2C Params Opt Rng) minibatches n :
  Forall (minibatch_ok Obs Act Dist Params actor_forward critic_forward dist_log_prob)
         minibatches ->
  logs_filled Params Opt Rng n self ->
  exists self',
    A2C.update_policy Obs Act Dist Params Opt Rng actor_forward critic_forward
      dist_sample dist_mode dist_log_prob long_flatten step_policy step_value
      minibatches self = Ok tt self' /\
    logs_filled Params Opt Rng (n + length minibatches) self'.
Proof.
  intros Hok. revert self n.
  induction Hok as [|rollout rest Hr _ IH]; intros self n Hlogs.
  - exists self. split; [done|]. simpl. by rewrite Nat.add_0_r.
  - destruct (update_minibatch_filled self rollout n Hr Hlogs) as (self1 & Hrun1 & Hlogs1).
    destruct (IH self1 (S n) Hlogs1) as (self' & Hrun & Hlogs').
    exists self'. split.
    + simpl. unfold bind. rewrite Hrun1. exact Hrun.
    + simpl. by rewrite Nat.add_succ_r.
Qed.

End UpdatePolicy.

(** * Worked examples *)

(** Indices wrap around once, as in numpy, and are refused beyond. *)
Example np_index_examples :
  np_index 3 2 = Some 2%nat /\ np_index 3 (-1) = Some 2%nat /\
  np_index 3 (-3) = Some 0%nat /\ np_index 3 3 = None /\ np_index 3 (-4) = None.
Proof. repeat split. Qed.

(** Of several greatest entries [np.argmax] returns the first. *)
Example np_argmax_first_of_ties : np_argmax [1; 3; 2; 3] = Some 1%nat.
Proof.
  unfold np_argmax, argmax_from.
  repeat match goal with
         | |- context [Rlt_dec ?x ?y] => destruct (Rlt_dec x y); try lra
         end.
  done.
Qed.

(** On a fresh policy every score is the same, and action 0 is chosen. *)
Example select_action_fresh :
  UCB.select_action 0 0 (UCB.__init__ 1 2 1)
  = Ok 0%nat (UCB.set_action_hist [(0%Z, 0%nat)] (UCB.__init__ 1 2 1)).
Proof.
  unfold UCB.select_action, UCB.action_hist_append, UCB.quality, UCB.counts,
    UCB.confidence, bind, gets, modify. simpl.
  match goal with
  | |- context [Rlt_dec ?x ?y] => destruct (Rlt_dec x y); [lra|]
  end.
  done.
Qed.

(** A policy without arms: [np.argmax] of the empty row raises. *)
Example select_action_no_arms :
  UCB.select_action 0 0 (UCB.__init__ 1 0 1) = Raise ValueError (UCB.__init__ 1 0 1).
Proof. reflexivity. Qed.

(** An action outside the shape: the reward is already recorded when the
    [IndexError] is raised; nothing else has changed. *)
Example update_params_bad_action :
  UCB.update_params 0 2 5 (UCB.__init__ 1 2 1)
  = Raise IndexError (UCB.set_reward_hist [5] (UCB.__init__ 1 2 1)).
Proof.
  unfold UCB.update_params, UCB.reward_hist_append, UCB.regret_hist_append,
    UCB.quality, UCB.counts, UCB.regret, bind, gets, modify. simpl.
  done.
Qed.

(** A negative action index addresses the row from its end. *)
Example update_params_last_arm :
  exists s', UCB.update_params 0 (-1) 5 (UCB.__init__ 1 2 1) = Ok tt s' /\
             UCB._counts s' = [[0; 0 + 1]].
Proof.
  run_update. eexists. split; [reflexivity|]. done.
Qed.

(** The three tags, a missing [action_dim] and an unknown tag, with the
    architecture that just records what it is given. *)
Example get_val_model_examples :
  Values._get_val_model _ pair "V" 4 [32; 32]%Z None "relu"
    = Values.Returned ([Some 4; Some 32; Some 32; Some 1]%Z, "relu"%string) /\
  Values._get_val_model _ pair "Qsa" 4 [32; 32]%Z (Some 2%Z) "relu"
    = Values.Returned ([Some 6; Some 32; Some 32; Some 1]%Z, "relu"%string) /\
  Values._get_val_model _ pair "Qs" 4 [32; 32]%Z (Some 2%Z) "tanh"
    = Values.Returned ([Some 4; Some 32; Some 32; Some 2]%Z, "tanh"%string) /\
  Values._get_val_model _ pair "Qsa" 4 [32; 32]%Z None "relu"
    = Values.Raised TypeError /\
  Values._get_val_model _ pair "Q" 4 [32; 32]%Z (Some 2%Z) "relu"
    = Values.Raised ValueError.
Proof. repeat split. Qed.

(** * More about the UCB policy *)

(** ** Calls with an index outside the shape *)

(** An [update_params] whose context or action is outside the shape
    raises after the reward has been recorded and before anything else is
    written: the reward history gains the reward, no other field changes.
    The exception is [IndexError], except that with a valid context and no
    arms at all the builtin [max] of the empty row raises [ValueError]
    first. *)
Theorem update_params_out_of_range rows cols s context action reward :
  shaped rows cols (UCB._quality s) ->
  np_index rows context = None \/ np_index cols action = None ->
  exists e,
    UCB.update_params context action reward s
      = Raise e (UCB.set_reward_hist (UCB._reward_hist s ++ [reward]) s) /\
    (e = IndexError \/ e = ValueError) /\
    (e = ValueError <-> (is_Some (np_index rows context) /\ cols = 0%nat)).
Proof.
  intros Hq Hout.
  unfold UCB.update_params, UCB.reward_hist_append, UCB.regret_hist_append,
    UCB.quality, UCB.counts, UCB.regret, bind, gets, modify. simpl.
  destruct (np_index rows context) as [i|] eqn:Hi.
  - destruct Hout as [|Hj]; [done|].
    destruct (shaped_getitem _ _ _ _ _ Hq Hi) as (row & Hg & Hrow & Hlen).
    rewrite Hg. simpl.
    destruct row as [|x row]; simpl.
    + exists ValueError. split; [done|]. split; [by right|].
      split; [intros _; split; [by eexists|by rewrite <- Hlen]|done].
    + unfold getitem2. rewrite Hg.
      rewrite getitem_None by (by rewrite Hlen). simpl.
      exists IndexError. split; [done|]. split; [by left|].
      split; [done|]. intros [_ Hcols]. rewrite Hcols in Hlen. done.
  - rewrite getitem_None by (by destruct Hq as [-> _]). simpl.
    exists IndexError. split; [done|]. split; [by left|].
    split; [done|]. intros [[i Hi'] _]. done.
Qed.

Lemma update_params_out_of_range_witness :
  shaped 1 2 (UCB._quality (UCB.__init__ 1 2 1)) /\
  (np_index 1 0 = None \/ np_index 2 2 = None) /\
  exists e,
    UCB.update_params 0 2 5 (UCB.__init__ 1 2 1)
      = Raise e (UCB.set_reward_hist (UCB._reward_hist (UCB.__init__ 1 2 1) ++ [5])
                   (UCB.__init__ 1 2 1)) /\
    (e = IndexError \/ e = ValueError) /\
    (e = ValueError <-> (is_Some (np_index 1 0) /\ 2%nat = 0%nat)).
Proof.
  split; [apply shaped_zeros|]. split; [by right|].
  apply (update_params_out_of_range 1 2 (UCB.__init__ 1 2 1) 0 2 5);
    [apply shaped_zeros|by right].
Defined.

Lemma select_action_out_of_range_core rows cols s context t :
  shaped rows cols (UCB._quality s) ->
  np_index rows context = None ->
  UCB.select_action context t s = Raise IndexError s.
Proof.
  intros [Hlen _] Hi.
  unfold UCB.select_action, UCB.quality, bind, gets. simpl.
  rewrite getitem_None by (by rewrite Hlen). done.
Qed.

(** A [select_action] whose context is outside the shape raises
    [IndexError] and leaves the policy exactly as it was: no pair is
    recorded. *)
Theorem select_action_out_of_range rows cols s context t :
  shaped rows cols (UCB._quality s) ->
  np_index rows context = None ->
  UCB.select_action context t s = Raise IndexError s.
Proof. apply select_action_out_of_range_core. Qed.

Lemma select_action_out_of_range_witness :
  shaped 2 3 (UCB._quality (UCB.__init__ 2 3 1)) /\ np_index 2 2 = None /\
  UCB.select_action 2 0 (UCB.__init__ 2 3 1) = Raise IndexError (UCB.__init__ 2 3 1).
Proof.
  split; [apply shaped_zeros|]. split; [reflexivity|].
  apply (select_action_out_of_range 2 3); [apply shaped_zeros|reflexivity].
Defined.

(** ** Negative indices *)

Lemma np_index_negative n i :
  (0 <= i < Z.of_nat n)%Z -> np_index n (i - Z.of_nat n) = Some (Z.to_nat i).
Proof.
  intros [H0 H1]. unfold np_index.
  destruct (Z.leb_spec 0 (i - Z.of_nat n)); [lia|]. simpl.
  destruct (Z.leb_spec (- Z.of_nat n) (i - Z.of_nat n)); [|lia].
  destruct (Z.ltb_spec (i - Z.of_nat n) 0); [|lia]. simpl.
  f_equal. lia.
Qed.

(** [select_action] depends on the context only through the rows it
    addresses and the pair it records. *)
Lemma select_action_same_rows c1 c2 t s :
  getitem (UCB._quality s) c1 = getitem (UCB._quality s) c2 ->
  getitem (UCB._counts s) c1 = getitem (UCB._counts s) c2 ->
  match UCB.select_action c1 t s with
  | Ok a _ =>
      UCB.select_action c2 t s
      = Ok a (UCB.set_action_hist (UCB._action_hist s ++ [(c2, a)]) s)
  | Raise e _ => UCB.select_action c2 t s = Raise e s
  end.
Proof.
  intros Hq Hn.
  unfold UCB.select_action, UCB.action_hist_append, UCB.quality, UCB.counts,
    UCB.confidence, bind, gets, modify. simpl.
  rewrite <- Hq.
  destruct (getitem (UCB._quality s) c1) as [q_row|]; simpl; [|done].
  destruct (np_log (t + 1)) as [[l|]|]; simpl; [| |done]; rewrite <- Hn.
  - destruct (getitem (UCB._counts s) c1) as [n_row|]; simpl; [|done].
    destruct (broadcast2 _ _ _) as [score|]; simpl; [|done].
    destruct (np_argmax score) as [a|]; simpl; done.
  - destruct (getitem (UCB._counts s) c1) as [n_row|]; simpl; [|done].
    destruct (broadcast2 _ _ _) as [score|]; simpl; [|done].
    destruct (np_argmax_nan score) as [a|]; simpl; done.
Qed.

Lemma getitem_resolved {A} (xs : list A) c i :
  np_index (length xs) c = Some i -> getitem xs c = xs !! i.
Proof. intros Hi. unfold getitem. by rewrite Hi. Qed.

(** Negative indices address the arrays from their end, as in numpy:
    [update_params(c - numContexts, a - numArms, r)] does exactly what
    [update_params(c, a, r)] does, and [select_action(c - numContexts, t)]
    does what [select_action(c, t)] does, for every timestep: it raises
    the same exception, or returns the same action and differs only in
    the context it records in the action history. *)
Theorem negative_indices_alias bandits arms s context action reward t :
  wf bandits arms s ->
  (0 <= context < Z.of_nat bandits)%Z -> (0 <= action < Z.of_nat arms)%Z ->
  UCB.update_params (context - Z.of_nat bandits) (action - Z.of_nat arms) reward s
    = UCB.update_params context action reward s /\
  match UCB.select_action context t s with
  | Ok a s' =>
      s' = UCB.set_action_hist (UCB._action_hist s ++ [(context, a)]) s /\
      UCB.select_action (context - Z.of_nat bandits) t s
      = Ok a (UCB.set_action_hist
                (UCB._action_hist s ++ [((context - Z.of_nat bandits)%Z, a)]) s)
  | Raise e s' =>
      s' = s /\
      UCB.select_action (context - Z.of_nat bandits) t s = Raise e s
  end.
Proof.
  intros Hwf Hc Ha. pose proof Hwf as (Hq & Hn & _). split.
  - destruct (update_params_inside bandits arms s context action reward
                (Z.to_nat context) (Z.to_nat action) Hq Hn)
      as (row & m & Hrow & Hm & ->); [by apply np_index_nonneg..|].
    destruct (update_params_inside bandits arms s (context - Z.of_nat bandits)
                (action - Z.of_nat arms) reward
                (Z.to_nat context) (Z.to_nat action) Hq Hn)
      as (row' & m' & Hrow' & Hm' & ->); [by apply np_index_negative..|].
    rewrite Hrow in Hrow'. injection Hrow' as <-.
    rewrite Hm in Hm'. injection Hm' as <-. done.
  - pose proof (select_action_same_rows context (context - Z.of_nat bandits) t s) as Hsame.
    destruct Hq as [Hlq _], Hn as [Hln _].
    rewrite !(getitem_resolved _ context (Z.to_nat context)) in Hsame
      by (rewrite ?Hlq, ?Hln; by apply np_index_nonneg).
    rewrite !(getitem_resolved _ (context - Z.of_nat bandits)%Z (Z.to_nat context)) in Hsame
      by (rewrite ?Hlq, ?Hln; by apply np_index_negative).
    specialize (Hsame eq_refl eq_refl).
    destruct (select_action_cases context t s) as [[e Hrun]|[a Hrun]];
      rewrite Hrun in Hsame |- *; done.
Qed.

Lemma negative_indices_alias_witness :
  wf 2 3 UCBExample.visited /\
  (0 <= 1 < Z.of_nat 2)%Z /\ (0 <= 2 < Z.of_nat 3)%Z /\
  UCB.update_params (1 - Z.of_nat 2) (2 - Z.of_nat 3) 7 UCBExample.visited
    = UCB.update_params 1 2 7 UCBExample.visited /\
  match UCB.select_action 1 4 UCBExample.visited with
  | Ok a s' =>
      s' = UCB.set_action_hist (UCB._action_hist UCBExample.visited ++ [(1%Z, a)])
             UCBExample.visited /\
      UCB.select_action (1 - Z.of_nat 2) 4 UCBExample.visited
      = Ok a (UCB.set_action_hist
                (UCB._action_hist UCBExample.visited ++ [((1 - Z.of_nat 2)%Z, a)])
                UCBExample.visited)
  | Raise e s' =>
      s' = UCBExample.visited /\
      UCB.select_action (1 - Z.of_nat 2) 4 UCBExample.visited = Raise e UCBExample.visited
  end.
Proof.
  split; [apply wf_visited|]. split; [lia|]. split; [lia|].
  apply (negative_indices_alias 2 3 UCBExample.visited 1 2 7 4);
    [apply wf_visited|lia|lia].
Defined.

(** ** Which action is selected *)

Lemma score_no_bonus s i t j :
  t = 0%Z \/ UCB._c s = 0 -> score s i t j = entry (UCB._quality s) i j.
Proof.
  intros [->|Hc]; unfold score.
  - rewrite Rplus_0_l, ln_1. unfold Rdiv.
    rewrite Rmult_0_r, Rmult_0_l, sqrt_0. lra.
  - rewrite Hc. lra.
Qed.

Lemma select_action_greedy_inside bandits arms s context t i :
  wf bandits arms s -> (0 < arms)%nat ->
  np_index bandits context = Some i ->
  (0 <= t)%Z -> (t + 1 < 2 ^ 64)%Z ->
  t = 0%Z \/ UCB._c s = 0 ->
  exists a,
    UCB.select_action context t s
      = Ok a (UCB.set_action_hist (UCB._action_hist s ++ [(context, a)]) s) /\
    greedy s arms i a.
Proof.
  intros Hwf Harms Hi Ht0 Ht1 Hnb.
  destruct (select_action_inside bandits arms s context t i Hwf Harms Hi Ht0 Ht1)
    as (a & Hrun & Halt & Hle & Hlt).
  exists a. split; [done|]. split; [done|]. split.
  - intros j Hj. specialize (Hle j Hj). by rewrite !score_no_bonus in Hle.
  - intros j Hj. specialize (Hlt j Hj). by rewrite !score_no_bonus in Hlt.
Qed.

(** At timestep 0 the exploration term is [sqrt(2 * ln(1) / ...) = 0], and
    with confidence 0 it is multiplied away at every timestep [t >= 0]
    that [np.log] accepts: in both cases [select_action] is greedy and
    returns the first action of greatest quality in the context's row. *)
Theorem select_action_greedy bandits arms s context t :
  wf bandits arms s -> (0 < arms)%nat ->
  (0 <= context < Z.of_nat bandits)%Z ->
  (0 <= t)%Z -> (t + 1 < 2 ^ 64)%Z ->
  t = 0%Z \/ UCB._c s = 0 ->
  exists a s',
    UCB.select_action context t s = Ok a s' /\
    greedy s arms (Z.to_nat context) a.
Proof.
  intros Hwf Harms Hc Ht0 Ht1 Hnb.
  destruct (select_action_greedy_inside bandits arms s context t (Z.to_nat context)
              Hwf Harms (np_index_nonneg _ _ Hc) Ht0 Ht1 Hnb) as (a & Hrun & Hg).
  by exists a, (UCB.set_action_hist (UCB._action_hist s ++ [(context, a)]) s).
Qed.

Lemma select_action_greedy_witness :
  wf 2 3 UCBExample.visited /\ (0 < 3)%nat /\ (0 <= 0 < Z.of_nat 2)%Z /\
  (0 <= 0)%Z /\ (0 + 1 < 2 ^ 64)%Z /\
  (0%Z = 0%Z \/ UCB._c UCBExample.visited = 0) /\
  exists a s',
    UCB.select_action 0 0 UCBExample.visited = Ok a s' /\
    greedy UCBExample.visited 3 (Z.to_nat 0) a.
Proof.
  split; [apply wf_visited|]. split; [lia|]. split; [lia|]. split; [lia|].
  split; [lia|]. split; [by left|].
  apply (select_action_greedy 2 3 UCBExample.visited 0 0);
    [apply wf_visited|lia|lia|lia|lia|by left].
Defined.

(** ** When the regret stays *)

Lemma update_params_regret_inside bandits arms s context action reward i j :
  wf bandits arms s ->
  np_index bandits context = Some i -> np_index arms action = Some j ->
  exists m,
    UCB.update_params context action reward s = Ok tt (updated s i j m reward) /\
    entry (UCB._quality s) i j <= m /\
    (m = entry (UCB._quality s) i j <->
     forall k, (k < arms)%nat -> entry (UCB._quality s) i k <= entry (UCB._quality s) i j).
Proof.
  intros (Hq & Hn & _) Hi Hj.
  destruct (update_params_inside bandits arms s context action reward i j Hq Hn Hi Hj)
    as (row & m & Hrow & Hm & Hrun).
  pose proof (shaped_row _ _ _ _ _ Hq Hrow) as Hlen.
  apply py_max_is_max in Hm as [Hin Hall].
  assert (forall k, (k < arms)%nat -> row !! k = Some (entry (UCB._quality s) i k)) as Hk.
  { intros k Hlt. unfold entry. rewrite Hrow.
    destruct (lookup_lt_is_Some_2 row k) as [x ->]; [lia|done]. }
  pose proof (np_index_lt _ _ _ Hj) as Hjlt.
  exists m. split; [done|]. split.
  - apply Hall, list_elem_of_lookup. exists j. by apply Hk.
  - split.
    + intros -> k Hlt. apply Hall, list_elem_of_lookup. exists k. by apply Hk.
    + intros Hbest. apply list_elem_of_lookup in Hin as [k Hmk].
      assert (k < arms)%nat as Hlt by (apply lookup_lt_Some in Hmk; lia).
      rewrite (Hk k Hlt) in Hmk. injection Hmk as <-.
      apply Rle_antisym; [by apply Hbest|].
      apply Hall, list_elem_of_lookup. exists j. by apply Hk.
Qed.

(** An update of an action that has the greatest quality of its context
    costs no regret: the call returns, the cumulative regret is the one
    from before the call, and that same value is what the call appends to
    the regret history. *)
Theorem regret_unchanged_when_best bandits arms s context action reward :
  wf bandits arms s ->
  (0 <= context < Z.of_nat bandits)%Z -> (0 <= action < Z.of_nat arms)%Z ->
  (forall k, (k < arms)%nat ->
     entry (UCB._quality s) (Z.to_nat context) k
       <= entry (UCB._quality s) (Z.to_nat context) (Z.to_nat action)) ->
  exists s',
    UCB.update_params context action reward s = Ok tt s' /\
    UCB._regret s' = UCB._regret s /\
    UCB._regret_hist s' = UCB._regret_hist s ++ [UCB._regret s].
Proof.
  intros Hwf Hc Ha Hbest.
  destruct (update_params_regret_inside bandits arms s context action reward
              (Z.to_nat context) (Z.to_nat action) Hwf)
    as (m & Hrun & Hle & Hiff); [by apply np_index_nonneg..|].
  eexists. split; [exact Hrun|]. simpl.
  apply Hiff in Hbest. rewrite Hbest.
  replace (UCB._regret s + _) with (UCB._regret s) by lra. done.
Qed.

Lemma visited_best_arm k :
  (k < 3)%nat ->
  entry (UCB._quality UCBExample.visited) (Z.to_nat 0) k
    <= entry (UCB._quality UCBExample.visited) (Z.to_nat 0) (Z.to_nat 1).
Proof.
  intros Hk. destruct k as [|[|[|k]]]; [..|lia]; unfold entry; simpl; lra.
Qed.

Lemma regret_unchanged_when_best_witness :
  wf 2 3 UCBExample.visited /\
  (0 <= 0 < Z.of_nat 2)%Z /\ (0 <= 1 < Z.of_nat 3)%Z /\
  (forall k, (k < 3)%nat ->
     entry (UCB._quality UCBExample.visited) (Z.to_nat 0) k
       <= entry (UCB._quality UCBExample.visited) (Z.to_nat 0) (Z.to_nat 1)) /\
  exists s',
    UCB.update_params 0 1 4 UCBExample.visited = Ok tt s' /\
    UCB._regret s' = UCB._regret UCBExample.visited /\
    UCB._regret_hist s'
      = UCB._regret_hist UCBExample.visited ++ [UCB._regret UCBExample.visited].
Proof.
  split; [apply wf_visited|]. split; [lia|]. split; [lia|].
  split; [apply visited_best_arm|].
  apply (regret_unchanged_when_best 2 3 UCBExample.visited 0 1 4);
    [apply wf_visited|lia|lia|apply visited_best_arm].
Defined.

(** Greedy play costs no regret: when [select_action] is greedy
    (timestep 0, or confidence 0 at a timestep [t >= 0] that [np.log]
    accepts), updating the context with the action it returned leaves the
    cumulative regret where it was, whatever the reward. *)
Theorem greedy_play_keeps_regret bandits arms s context t reward :
  wf bandits arms s -> (0 < arms)%nat ->
  (0 <= context < Z.of_nat bandits)%Z ->
  (0 <= t)%Z -> (t + 1 < 2 ^ 64)%Z ->
  t = 0%Z \/ UCB._c s = 0 ->
  exists a s1 s2,
    UCB.select_action context t s = Ok a s1 /\
    UCB.update_params context (Z.of_nat a) reward s1 = Ok tt s2 /\
    UCB._regret s2 = UCB._regret s.
Proof.
  intros Hwf Harms Hc Ht0 Ht1 Hnb.
  destruct (select_action_greedy_inside bandits arms s context t (Z.to_nat context)
              Hwf Harms (np_index_nonneg _ _ Hc) Ht0 Ht1 Hnb)
    as (a & Hrun & Halt & Hbest & _).
  set (s1 := UCB.set_action_hist (UCB._action_hist s ++ [(context, a)]) s) in *.
  assert (wf bandits arms s1) as Hwf1 by done.
  destruct (update_params_regret_inside bandits arms s1 context (Z.of_nat a) reward
              (Z.to_nat context) a Hwf1)
    as (m & Hrun2 & _ & Hiff).
  { by apply np_index_nonneg. }
  { rewrite np_index_nonneg by lia. by rewrite Nat2Z.id. }
  exists a, s1. eexists. split; [exact Hrun|]. split; [exact Hrun2|].
  simpl. apply Hiff in Hbest. rewrite Hbest. simpl. lra.
Qed.

Lemma greedy_play_keeps_regret_witness :
  wf 2 3 UCBExample.visited /\ (0 < 3)%nat /\ (0 <= 0 < Z.of_nat 2)%Z /\
  (0 <= 0)%Z /\ (0 + 1 < 2 ^ 64)%Z /\
  (0%Z = 0%Z \/ UCB._c UCBExample.visited = 0) /\
  exists a s1 s2,
    UCB.select_action 0 0 UCBExample.visited = Ok a s1 /\
    UCB.update_params 0 (Z.of_nat a) 3 s1 = Ok tt s2 /\
    UCB._regret s2 = UCB._regret UCBExample.visited.
Proof.
  split; [apply wf_visited|]. split; [lia|]. split; [lia|]. split; [lia|].
  split; [lia|]. split; [by left|].
  apply (greedy_play_keeps_regret 2 3 UCBExample.visited 0 0 3);
    [apply wf_visited|lia|lia|lia|lia|by left].
Defined.

(** ** Invariants of a policy over any sequence of calls *)

(** Whatever calls are made on a freshly constructed policy, returning or
    raising, with indices inside the shape or not: both arrays keep the
    shape (numContexts, numArms) and no count is negative. *)
Theorem policy_stays_well_formed bandits arms confidence calls :
  wf bandits arms (run calls (UCB.__init__ bandits arms confidence)).
Proof. apply wf_run, wf_init. Qed.

Lemma total_insert (row : list R) j v :
  (j < length row)%nat ->
  total (<[j := v]> row) = total row + (v - default 0 (row !! j)).
Proof.
  revert j. induction row as [|x row IH]; intros j Hj; simpl in Hj; [lia|].
  destruct j as [|j]; simpl.
  - unfold total. simpl. lra.
  - unfold total in *. simpl. rewrite IH by lia. lra.
Qed.

Lemma sum2_update2 rows cols arr i j v :
  shaped rows cols arr -> (i < rows)%nat -> (j < cols)%nat ->
  sum2 (update2 arr i j v) = sum2 arr + (v - entry arr i j).
Proof.
  intros [Hlen Hall] Hi Hj. subst rows. unfold update2, entry.
  revert i Hi. induction arr as [|row arr IH]; intros i Hi; simpl in Hi; [lia|].
  apply Forall_cons in Hall as [Hrow Hall].
  destruct i as [|i]; simpl.
  - rewrite total_insert by lia. lra.
  - change (list_alter ?f i arr) with (alter f i arr).
    rewrite (IH Hall i) by lia. lra.
Qed.

Lemma total_zeros cols : total (replicate cols 0) = 0.
Proof.
  unfold total. induction cols as [|cols IH]; simpl; [done|]. rewrite IH. lra.
Qed.

Lemma sum2_zeros rows cols : sum2 (np_zeros rows cols) = 0.
Proof.
  unfold np_zeros. induction rows as [|rows IH]; simpl; [done|].
  rewrite IH, total_zeros. lra.
Qed.

Lemma update_rewards_app calls1 calls2 :
  update_rewards (calls1 ++ calls2) = update_rewards calls1 ++ update_rewards calls2.
Proof.
  induction calls1 as [|[context t|context action reward] calls1 IH]; simpl;
    [done|done|by rewrite IH].
Qed.

Lemma updates_inside_app bandits arms calls1 calls2 :
  updates_inside bandits arms (calls1 ++ calls2)
  = (updates_inside bandits arms calls1 + updates_inside bandits arms calls2)%nat.
Proof.
  induction calls1 as [|[context t|context action reward] calls1 IH]; simpl;
    [done|done|].
  destruct (inside _ _ _ _); simpl; by rewrite IH.
Qed.

Lemma selects_inside_app bandits calls1 calls2 :
  selects_inside bandits (calls1 ++ calls2)
  = (selects_inside bandits calls1 + selects_inside bandits calls2)%nat.
Proof.
  induction calls1 as [|[context t|context action reward] calls1 IH]; simpl;
    [done| |done].
  destruct (accepted _ _ _); simpl; by rewrite IH.
Qed.

(** What one call adds to the histories and to the sum of the counts. *)
Lemma exec_histories bandits arms s k :
  wf bandits arms s ->
  UCB._reward_hist (exec k s) = UCB._reward_hist s ++ update_rewards [k] /\
  length (UCB._regret_hist (exec k s))
    = (length (UCB._regret_hist s) + updates_inside bandits arms [k])%nat /\
  sum2 (UCB._counts (exec k s))
    = sum2 (UCB._counts s) + INR (updates_inside bandits arms [k]) /\
  ((0 < arms)%nat ->
   length (UCB._action_hist (exec k s))
     = (length (UCB._action_hist s) + selects_inside bandits [k])%nat) /\
  (UCB._action_hist (exec k s) = UCB._action_hist s \/
   exists a, UCB._action_hist (exec k s) = UCB._action_hist s ++ [a]).
Proof.
  intros Hwf. pose proof Hwf as (Hq & Hn & _).
  destruct k as [context t|context action reward]; simpl.
  - unfold accepted.
    destruct (np_index bandits context) as [i|] eqn:Hi.
    + destruct (np_log (t + 1)) as [lv|] eqn:Hlog.
      * rewrite bool_decide_true by (split; by eexists).
        destruct (decide (0 < arms)%nat) as [Harms|Harms].
        -- destruct (select_action_returns bandits arms s context t i Hwf Harms Hi)
             as (a & ->); [by rewrite Hlog|]. simpl.
           rewrite app_nil_r, Nat.add_0_r, Rplus_0_r, length_app. simpl.
           repeat split; [right; by eexists].
        -- destruct (select_action_cases context t s) as [[e ->]|[a ->]]; simpl;
             rewrite app_nil_r, Nat.add_0_r, Rplus_0_r;
             (repeat split; [intros; lia|]); [by left|right; by eexists].
      * rewrite bool_decide_false by (by intros [_ [? ?]]).
        rewrite (select_action_type_error bandits arms s context t i Hq Hi Hlog). simpl.
        rewrite app_nil_r, !Nat.add_0_r, Rplus_0_r.
        repeat split. by left.
    + rewrite bool_decide_false by (by intros [[? ?] _]).
      rewrite (select_action_out_of_range_core bandits arms s context t Hq Hi). simpl.
      rewrite app_nil_r, !Nat.add_0_r, Rplus_0_r.
      repeat split. by left.
  - unfold inside.
    destruct (np_index bandits context) as [i|] eqn:Hi;
      [destruct (np_index arms action) as [j|] eqn:Hj|].
    + destruct (update_params_inside _ _ s context action reward i j Hq Hn Hi Hj)
        as (row & m & _ & _ & ->). simpl.
      rewrite length_app. simpl.
      rewrite (sum2_update2 bandits arms) by (done || by eapply np_index_lt).
      repeat split; try lia; try lra. by left.
    + destruct (update_params_outside _ _ s context action reward Hq) as [e ->]; [by right|].
      simpl. repeat split; try lia; try lra. by left.
    + destruct (update_params_outside _ _ s context action reward Hq) as [e ->]; [by left|].
      simpl. repeat split; try lia; try lra. by left.
Qed.

(** After any sequence of calls on a freshly constructed policy: the
    reward history holds the rewards of all calls of [update_params], also
    of those that raised; the regret history has one entry per update whose
    indices were inside the shape; the counts add up to the number of
    those updates; with at least one arm the action history has one pair
    per [select_action] whose context was inside the shape and whose
    timestep [np.log] accepted, and none for the others, which raised. *)
Theorem histories_track_calls bandits arms confidence calls :
  UCB._reward_hist (run calls (UCB.__init__ bandits arms confidence))
    = update_rewards calls /\
  length (UCB._regret_hist (run calls (UCB.__init__ bandits arms confidence)))
    = updates_inside bandits arms calls /\
  sum2 (UCB._counts (run calls (UCB.__init__ bandits arms confidence)))
    = INR (updates_inside bandits arms calls) /\
  ((0 < arms)%nat ->
   length (UCB._action_hist (run calls (UCB.__init__ bandits arms confidence)))
     = selects_inside bandits calls).
Proof.
  induction calls as [|k calls IH] using rev_ind.
  - simpl. rewrite sum2_zeros. done.
  - destruct IH as (IHr & IHg & IHs & IHa).
    rewrite run_snoc, update_rewards_app, updates_inside_app, selects_inside_app.
    destruct (exec_histories bandits arms
                (run calls (UCB.__init__ bandits arms confidence)) k
                (wf_run _ _ _ _ (wf_init _ _ _))) as (Hr & Hg & Hs & Ha & _).
    rewrite Hr, Hg, Hs, IHr, IHg, IHs, plus_INR.
    repeat split. intros Harms. rewrite (Ha Harms), (IHa Harms). done.
Qed.

Lemma histories_track_calls_witness :
  (0 < 2)%nat /\
  length (UCB._action_hist
            (run [SelectAction 0 0; UpdateParams 0 5 1; SelectAction 3 1;
                  SelectAction 0 (2 ^ 64); SelectAction (-1) (-1)]
                 (UCB.__init__ 1 2 1)))
    = selects_inside 1 [SelectAction 0 0; UpdateParams 0 5 1; SelectAction 3 1;
                        SelectAction 0 (2 ^ 64); SelectAction (-1) (-1)].
Proof.
  split; [lia|].
  apply (histories_track_calls 1 2 1
           [SelectAction 0 0; UpdateParams 0 5 1; SelectAction 3 1;
            SelectAction 0 (2 ^ 64); SelectAction (-1) (-1)]). lia.
Defined.

(** The action history is append-only: a call never removes or rewrites
    a recorded pair. *)
Theorem action_history_append_only calls s :
  UCB._action_hist s `prefix_of` UCB._action_hist (run calls s).
Proof.
  revert s. induction calls as [|k calls IH]; intros s; simpl; [done|].
  etrans; [|apply IH].
  destruct k as [context t|context action reward]; simpl.
  - destruct (select_action_cases context t s) as [[e ->]|[a ->]]; simpl;
      [done|by apply prefix_app_r].
  - unfold UCB.update_params, UCB.reward_hist_append, UCB.regret_hist_append,
      UCB.quality, UCB.counts, UCB.regret, bind, gets, modify. simpl.
    repeat match goal with
           | |- context [or_raise _ ?o] => destruct o; simpl
           end; done.
Qed.

Lemma regret_is_last_exec k s : regret_is_last s -> regret_is_last (exec k s).
Proof.
  intros [Hpos Hlast]. destruct k as [context t|context action reward]; simpl.
  - destruct (select_action_cases context t s) as [[e ->]|[a ->]]; done.
  - destruct (update_params_regret context action reward s)
      as (d & Hd & Hreg & [[Hhist ->]|Hhist]);
      unfold regret_is_last; rewrite Hreg, Hhist.
    + rewrite Rplus_0_r. done.
    + rewrite last_snoc. split; [lra|done].
Qed.

(** After any sequence of calls on a freshly constructed policy, the
    cumulative regret is not negative and equals the last entry of the
    regret history; it is 0 as long as no update has returned. *)
Theorem regret_is_last_of_history bandits arms confidence calls :
  regret_is_last (run calls (UCB.__init__ bandits arms confidence)).
Proof.
  induction calls as [|k calls IH] using rev_ind.
  - split; simpl; lra.
  - rewrite run_snoc. by apply regret_is_last_exec.
Qed.

(** ** The quality stays within the rewards *)

Lemma total_within lo hi rs :
  within lo hi rs -> INR (length rs) * lo <= total rs <= INR (length rs) * hi.
Proof.
  unfold total. induction 1 as [|r rs Hr _ IH]; simpl length; [simpl; lra|].
  rewrite S_INR. simpl. lra.
Qed.

(** On a freshly constructed policy, after any sequence of calls, the
    quality of a pair that has been updated at least once lies between
    the least and the greatest reward the pair has received: if all its
    rewards are in [[lo, hi]], so is its quality. *)
Theorem quality_within_rewards bandits arms confidence calls c a lo hi :
  rewards_at bandits arms c a calls <> [] ->
  within lo hi (rewards_at bandits arms c a calls) ->
  lo <= entry (UCB._quality (run calls (UCB.__init__ bandits arms confidence))) c a <= hi.
Proof.
  intros Hne Hin.
  destruct (run_counts_quality bandits arms confidence calls c a) as [_ Hq].
  simpl in Hq. apply total_within in Hin. rewrite <- Hq in Hin.
  assert (0 < INR (length (rewards_at bandits arms c a calls))) as Hk.
  { apply lt_0_INR. destruct (rewards_at bandits arms c a calls); [done|simpl; lia]. }
  split; nra.
Qed.

Lemma quality_within_rewards_witness :
  rewards_at 1 2 0 1 [UpdateParams 0 1 4; UpdateParams 0 0 9; UpdateParams 0 (-1) 6] <> [] /\
  within 4 6 (rewards_at 1 2 0 1
                [UpdateParams 0 1 4; UpdateParams 0 0 9; UpdateParams 0 (-1) 6]) /\
  4 <= entry (UCB._quality
                (run [UpdateParams 0 1 4; UpdateParams 0 0 9; UpdateParams 0 (-1) 6]
                     (UCB.__init__ 1 2 1))) 0 1 <= 6.
Proof.
  assert (within 4 6 (rewards_at 1 2 0 1
                        [UpdateParams 0 1 4; UpdateParams 0 0 9; UpdateParams 0 (-1) 6]))
    as Hin.
  { simpl. repeat constructor; lra. }
  split; [simpl; discriminate|]. split; [exact Hin|].
  apply (quality_within_rewards 1 2 1); [simpl; discriminate|exact Hin].
Defined.

(** * More about the value-function builders *)

(** [action_dim] and the three tags.  For "Qsa" a missing [action_dim]
    is a [TypeError], raised by [state_dim + action_dim] before the
    architecture is called.  For "V" the argument is not used: whatever
    is passed for it, the call does the same. *)
Theorem get_val_model_action_dim (Net : Type) (arch : list (option Z) -> string -> Net)
    (state_dim : Z) (hidden : list Z) (activation : string) :
  Values._get_val_model Net arch "Qsa" state_dim hidden None activation
    = Values.Raised TypeError /\
  (forall action_dim action_dim',
     Values._get_val_model Net arch "V" state_dim hidden action_dim activation
     = Values._get_val_model Net arch "V" state_dim hidden action_dim' activation).
Proof. split; [reflexivity|]. intros action_dim action_dim'. reflexivity. Qed.

(** [get_value_from_name] knows exactly the two names "mlp" and "cnn",
    spelled so: it returns [MlpValue] for the first, [CNNValue] for the
    second and raises [NotImplementedError] for every other string. *)
Theorem get_value_from_name_cases (name_ : string) :
  (ValuesMore.get_value_from_name name_ = Some ValuesMore.MlpValueClass
   <-> name_ = "mlp"%string) /\
  (ValuesMore.get_value_from_name name_ = Some ValuesMore.CNNValueClass
   <-> name_ = "cnn"%string) /\
  (ValuesMore.get_value_from_name name_ = None
   <-> (name_ <> "mlp" /\ name_ <> "cnn")%string).
Proof.
  unfold ValuesMore.get_value_from_name, ValuesMore.value_registry.
  destruct (decide (name_ = "cnn"%string)) as [->|Hcnn].
  { rewrite lookup_insert_eq. rewrite bool_decide_true by (by eexists).
    repeat split; intros; try done. by destruct H. }
  rewrite lookup_insert_ne by done.
  destruct (decide (name_ = "mlp"%string)) as [->|Hmlp].
  { rewrite lookup_insert_eq. rewrite bool_decide_true by (by eexists).
    repeat split; intros; try done. by destruct H. }
  rewrite lookup_insert_ne by done. rewrite lookup_empty.
  rewrite bool_decide_false by (by intros [? ?]).
  repeat split; intros; done.
Qed.

Section ValueClasses.

Variables Net Conv : Type.
Variable mlp : list (option Z) -> string -> Net.
Variable cnn : Z * Z * Z -> string -> Conv * Z.

(** Constructing an [MlpValue] reads of its keyword arguments only
    ["activation"], with ["relu"] when it is absent; every other keyword
    is accepted and ignored.  The construction fails exactly when
    [_get_val_model] does, with its exception, and otherwise stores the
    two dimensions as given and a model built for that activation. *)
Theorem MlpValue_init_outcomes (state_dim : Z) (action_dim : option Z)
    (val_type : string) (hidden : list Z) (kwargs kwargs' : gmap string string) :
  (kwargs !! "activation"%string = kwargs' !! "activation"%string ->
   ValuesMore.MlpValue_init Net mlp state_dim action_dim val_type hidden kwargs
   = ValuesMore.MlpValue_init Net mlp state_dim action_dim val_type hidden kwargs') /\
  (kwargs !! "activation"%string = None ->
   ValuesMore.MlpValue_init Net mlp state_dim action_dim val_type hidden kwargs
   = ValuesMore.MlpValue_init Net mlp state_dim action_dim val_type hidden
       (<["activation"%string := "relu"%string]> kwargs)) /\
  (forall e,
     ValuesMore.MlpValue_init Net mlp state_dim action_dim val_type hidden kwargs
       = Values.Raised e
     <-> Values._get_val_model Net mlp val_type state_dim hidden action_dim
           (ValuesMore.activation_of kwargs) = Values.Raised e) /\
  (forall obj,
     ValuesMore.MlpValue_init Net mlp state_dim action_dim val_type hidden kwargs
       = Values.Returned obj ->
     ValuesMore.mlp_state_dim Net obj = state_dim /\
     ValuesMore.mlp_action_dim Net obj = action_dim /\
     Values._get_val_model Net mlp val_type state_dim hidden action_dim
       (ValuesMore.activation_of kwargs)
     = Values.Returned (ValuesMore.mlp_model Net obj)).
Proof.
  unfold ValuesMore.MlpValue_init, ValuesMore.activation_of.
  split; [by intros ->|]. split.
  { intros ->. by rewrite lookup_insert_eq. }
  destruct (Values._get_val_model _ _ _ _ _ _ _) as [model|e0]; split.
  - intros e. split; intros; done.
  - intros obj [= <-]. done.
  - intros e. split; intros [= ->]; done.
  - intros obj. done.
Qed.

(** In a [CNNValue] the ["activation"] keyword reaches the convolutional
    extractor only: the dense head is built by [_get_val_model] with the
    activation left at its default, so it is a ["relu"] network whatever
    the keyword says, reading the extractor's output size. *)
Theorem CNNValue_head_is_relu (framestack : Z) (action_dim : option Z)
    (val_type : string) (fc_layers : list Z) (kwargs : gmap string string) obj :
  ValuesMore.CNNValue_init Net Conv mlp cnn framestack action_dim val_type fc_layers kwargs
    = Values.Returned obj ->
  ValuesMore.cnn_conv Net Conv obj
    = fst (cnn (framestack, 16, 32)%Z (ValuesMore.activation_of kwargs)) /\
  exists sizes,
    ValuesMore.cnn_fc Net Conv obj = mlp sizes "relu" /\
    (val_type <> "Qsa"%string ->
     Values.input_width sizes
       = Some (snd (cnn (framestack, 16, 32)%Z (ValuesMore.activation_of kwargs)))).
Proof.
  unfold ValuesMore.CNNValue_init, Values._get_val_model.
  destruct (String.eqb_spec val_type "V") as [->|HV].
  { intros [= <-]. simpl. split; [done|]. by eexists. }
  destruct (String.eqb_spec val_type "Qsa") as [->|HQsa].
  { destruct (Values.py_add _ _) as [w|]; [|done].
    intros [= <-]. simpl. split; [done|]. by eexists. }
  destruct (String.eqb_spec val_type "Qs") as [->|HQs]; [|done].
  intros [= <-]. simpl. split; [done|]. by eexists.
Qed.

End ValueClasses.

Lemma MlpValue_init_outcomes_witness :
  (∅ : gmap string string) !! "activation"%string = None /\
  ValuesMore.MlpValue_init (list (option Z) * string) pair 4 None "V" [32; 32]%Z ∅
  = ValuesMore.MlpValue_init (list (option Z) * string) pair 4 None "V" [32; 32]%Z
      (<["activation"%string := "relu"%string]> ∅).
Proof.
  split; [apply lookup_empty|].
  apply (MlpValue_init_outcomes (list (option Z) * string) pair 4 None "V" [32; 32]%Z ∅ ∅).
  apply lookup_empty.
Defined.

Lemma CNNValue_head_is_relu_witness :
  ValuesMore.CNNValue_init (list (option Z) * string) string pair
    (fun _ activation => (activation, 512%Z)) 4 (Some 6%Z) "Qs" [256]%Z
    (<["activation"%string := "tanh"%string]> ∅)
  = Values.Returned
      (ValuesMore.mkCNNValue (list (option Z) * string) string (Some 6%Z) "tanh"%string
         ([Some 512; Some 256; Some 6]%Z, "relu"%string)) /\
  exists sizes,
    ([Some 512; Some 256; Some 6]%Z, "relu"%string) = (sizes, "relu"%string).
Proof.
  assert (ValuesMore.CNNValue_init (list (option Z) * string) string pair
            (fun _ activation => (activation, 512%Z)) 4 (Some 6%Z) "Qs" [256]%Z
            (<["activation"%string := "tanh"%string]> ∅)
          = Values.Returned
              (ValuesMore.mkCNNValue (list (option Z) * string) string (Some 6%Z)
                 "tanh"%string ([Some 512; Some 256; Some 6]%Z, "relu"%string))) as Hrun.
  { unfold ValuesMore.CNNValue_init, ValuesMore.activation_of.
    rewrite lookup_insert_eq. reflexivity. }
  split; [exact Hrun|].
  destruct (CNNValue_head_is_relu (list (option Z) * string) string pair
              (fun _ activation => (activation, 512%Z)) 4 (Some 6%Z) "Qs" [256]%Z
              (<["activation"%string := "tanh"%string]> ∅) _ Hrun)
    as (_ & sizes & Hfc & _).
  exists sizes. exact Hfc.
Defined.

(** * More about the A2C agent *)

Section UpdateFailures.

Variables Obs Act Dist Params Opt Rng : Type.
Variable actor_forward : Params -> Obs -> Dist.
Variable critic_forward : Params -> Obs -> list R.
Variable dist_sample : Dist -> Rng -> Act * Rng.
Variable dist_mode : Dist -> Act.
Variable dist_log_prob : Dist -> Act -> list R.
Variable long_flatten : Act -> Act.
Variable step_policy : R -> Params * Opt -> Params * Opt.
Variable step_value : R -> Params * Opt -> Params * Opt.

(** On a minibatch that meets the contract of the loop (not empty, one
    log-probability and one value per sample), an iteration of the loop of
    [update_policy] raises exactly when one of the three log lists is
    missing; the exception is then [KeyError] and neither optimizer has
    stepped: the parameters and both optimizer states are those from
    before the iteration. *)
Theorem update_minibatch_raises (self : A2C.A2C Params Opt Rng)
    (rollout : A2C.RolloutBufferSamples Obs Act) :
  minibatch_ok Obs Act Dist Params actor_forward critic_forward dist_log_prob rollout ->
  ((exists e self',
      A2C.update_minibatch Obs Act Dist Params Opt Rng actor_forward critic_forward
        dist_sample dist_mode dist_log_prob long_flatten step_policy step_value
        rollout self = Raise e self')
   <-> (A2C.logs _ _ _ self !! "policy_loss"%string = None \/
        A2C.logs _ _ _ self !! "value_loss"%string = None \/
        A2C.logs _ _ _ self !! "policy_entropy"%string = None)) /\
  (forall e self',
     A2C.update_minibatch Obs Act Dist Params Opt Rng actor_forward critic_forward
       dist_sample dist_mode dist_log_prob long_flatten step_policy step_value
       rollout self = Raise e self' ->
     e = KeyError /\
     A2C.ac _ _ _ self' = A2C.ac _ _ _ self /\
     A2C.optimizer_policy _ _ _ self' = A2C.optimizer_policy _ _ _ self /\
     A2C.optimizer_value _ _ _ self' = A2C.optimizer_value _ _ _ self).
Proof.
  intros _.
  unfold A2C.update_minibatch, A2C.get_value_log_probs,
    A2C.ac_get_action, A2C.ac_get_value, A2C.logs_append, bind, gets, modify, ret.
  simpl.
  destruct (A2C.logs _ _ _ self !! "policy_loss"%string) as [pl|] eqn:Hpl; simpl.
  - rewrite lookup_insert_ne by done.
    destruct (A2C.logs _ _ _ self !! "value_loss"%string) as [vl|] eqn:Hvl; simpl.
    + rewrite !lookup_insert_ne by done.
      destruct (A2C.logs _ _ _ self !! "policy_entropy"%string) as [pe|] eqn:Hpe; simpl.
      * split; [|by intros e self' [=]].
        split; [by intros (e & self' & [=])|].
        intros [|[|]]; done.
      * split; [split; [intros _; by right; right|intros _; by eexists _, _]|].
        intros e self' [= <- <-]. done.
    + split; [split; [intros _; by right; left|intros _; by eexists _, _]|].
      intros e self' [= <- <-]. done.
  - split; [split; [intros _; by left|intros _; by eexists _, _]|].
    intros e self' [= <- <-]. done.
Qed.

End UpdateFailures.

Lemma coin_minibatch_ok :
  minibatch_ok Coin.Obs Coin.Act Coin.Dist Coin.Params
    Coin.actor_forward Coin.critic_forward Coin.dist_log_prob Coin.minibatch.
Proof. split; [simpl; lia|]. intros params acts. done. Qed.

Lemma update_minibatch_raises_witness :
  minibatch_ok Coin.Obs Coin.Act Coin.Dist Coin.Params
    Coin.actor_forward Coin.critic_forward Coin.dist_log_prob Coin.minibatch /\
  exists e self',
    Coin.update_minibatch Coin.minibatch Coin.agent = Raise e self' /\
    e = KeyError /\ A2C.ac _ _ _ self' = A2C.ac _ _ _ Coin.agent.
Proof.
  split; [apply coin_minibatch_ok|].
  destruct (update_minibatch_raises
              Coin.Obs Coin.Act Coin.Dist Coin.Params Coin.Opt Coin.Rng
              Coin.actor_forward Coin.critic_forward Coin.dist_sample Coin.dist_mode
              Coin.dist_log_prob (fun a => a) Coin.no_step Coin.no_step
              Coin.agent Coin.minibatch coin_minibatch_ok)
    as [[_ Hraise] Hkeep].
  destruct Hraise as (e & self' & Hrun); [left; apply lookup_empty|].
  exists e, self'. split; [exact Hrun|].
  destruct (Hkeep e self' Hrun) as (He & Hac & _). split; [exact He|exact Hac].
Defined.

Section Reporting.

Variables Net Opt Rng Attr SD : Type.
Variable state_dict : Net -> SD.
Variable load_state_dict : A2CMore.pyval Attr SD -> M Net unit.
Variable safe_mean : list R -> R.

Abbreviation Agent := (A2CMore.Agent Net Opt Rng Attr).
Abbreviation get_logging_params := (A2CMore.get_logging_params Net Opt Rng Attr safe_mean).
Abbreviation get_hyperparams := (A2CMore.get_hyperparams Net Opt Rng Attr SD state_dict).
Abbreviation load_weights := (A2CMore.load_weights Net Opt Rng Attr SD load_state_dict).
Abbreviation base := (A2CMore.base Net Opt Rng Attr).
Abbreviation rewards := (A2CMore.rewards Net Opt Rng Attr).
Abbreviation attrs := (A2CMore.attrs Net Opt Rng Attr).

(** What a report returns when the three log lists are present. *)
Lemma get_logging_params_run (self : Agent) pl vl pe :
  A2C.logs _ _ _ (base self) !! "policy_loss"%string = Some pl ->
  A2C.logs _ _ _ (base self) !! "value_loss"%string = Some vl ->
  A2C.logs _ _ _ (base self) !! "policy_entropy"%string = Some pe ->
  get_logging_params self
  = Ok (<["mean_reward"%string := safe_mean (rewards self)]>
          (<["policy_entropy"%string := safe_mean pe]>
            (<["value_loss"%string := safe_mean vl]>
              (<["policy_loss"%string := safe_mean pl]> ∅))))
       (state_of (A2CMore.empty_logs Net Opt Rng Attr self)).
Proof.
  intros Hpl Hvl Hpe.
  unfold A2CMore.get_logging_params, bind, gets, ret. simpl.
  rewrite Hpl. simpl. rewrite Hvl. simpl. rewrite Hpe. simpl. done.
Qed.

(** [get_logging_params] drains the logs.  With the three log lists
    present it returns the four means, taken over the lists as they were,
    and leaves three empty log lists and an empty list of rewards, the
    rest of the agent as it was; a second report right after the first
    returns [safe_mean] of the empty list four times.  With a log list
    missing it raises [KeyError] and the agent is as before: nothing has
    been cleared. *)
Theorem get_logging_params_drains (self : Agent) :
  (forall pl vl pe,
     A2C.logs _ _ _ (base self) !! "policy_loss"%string = Some pl ->
     A2C.logs _ _ _ (base self) !! "value_loss"%string = Some vl ->
     A2C.logs _ _ _ (base self) !! "policy_entropy"%string = Some pe ->
     exists report self',
       get_logging_params self = Ok report self' /\
       report !! "policy_loss"%string = Some (safe_mean pl) /\
       report !! "value_loss"%string = Some (safe_mean vl) /\
       report !! "policy_entropy"%string = Some (safe_mean pe) /\
       report !! "mean_reward"%string = Some (safe_mean (rewards self)) /\
       dom report = dom (A2C.logs _ _ _ (base self')) ∪ {["mean_reward"%string]} /\
       logs_filled (Net * Net) Opt Rng 0 (base self') /\
       rewards self' = [] /\
       attrs self' = attrs self /\
       A2C.ac _ _ _ (base self') = A2C.ac _ _ _ (base self) /\
       A2C.optimizer_policy _ _ _ (base self') = A2C.optimizer_policy _ _ _ (base self) /\
       A2C.optimizer_value _ _ _ (base self') = A2C.optimizer_value _ _ _ (base self) /\
       exists report',
         get_logging_params self' = Ok report' self' /\
         forall key, key ∈ dom report -> report' !! key = Some (safe_mean [])) /\
  (A2C.logs _ _ _ (base self) !! "policy_loss"%string = None \/
   A2C.logs _ _ _ (base self) !! "value_loss"%string = None \/
   A2C.logs _ _ _ (base self) !! "policy_entropy"%string = None ->
   get_logging_params self = Raise KeyError self).
Proof.
  split.
  - intros pl vl pe Hpl Hvl Hpe.
    rewrite (get_logging_params_run self pl vl pe Hpl Hvl Hpe).
    eexists _, _. split; [reflexivity|].
    split; [by rewrite !lookup_insert_ne, lookup_insert_eq by done|].
    split; [by rewrite !lookup_insert_ne, lookup_insert_eq by done|].
    split; [by rewrite !lookup_insert_ne, lookup_insert_eq by done|].
    split; [by rewrite lookup_insert_eq|].
    split; [simpl; rewrite !dom_insert_L; set_solver|].
    split; [apply (empty_logs_filled (Net * Net) Opt Rng (base self))|].
    repeat (split; [done|]).
    eexists. split.
    + rewrite (get_logging_params_run _ [] [] []); simpl;
        [|by rewrite ?lookup_insert_ne, lookup_insert_eq by done..].
      reflexivity.
    + intros key. rewrite !dom_insert_L, dom_empty_L.
      intros Hkey.
      repeat (apply elem_of_union in Hkey as [Hkey|Hkey]);
        try (apply elem_of_singleton in Hkey as ->);
        try (by apply elem_of_empty in Hkey);
        by rewrite ?lookup_insert_ne, lookup_insert_eq by done.
  - unfold A2CMore.get_logging_params, bind, gets, ret. simpl.
    destruct (A2C.logs _ _ _ (base self) !! "policy_loss"%string); simpl;
      [|by destruct self].
    destruct (A2C.logs _ _ _ (base self) !! "value_loss"%string); simpl;
      [|by destruct self].
    destruct (A2C.logs _ _ _ (base self) !! "policy_entropy"%string); simpl;
      [|by destruct self].
    intros [|[|]]; done.
Qed.

End Reporting.

Lemma get_logging_params_drains_witness :
  exists report self',
    A2CMore.get_logging_params Checkpoint.Net unit unit Checkpoint.Attr
      Checkpoint.safe_mean Checkpoint.trained = Ok report self' /\
    report !! "value_loss"%string = Some (Checkpoint.safe_mean [4; 2]) /\
    A2CMore.rewards _ _ _ _ self' = [].
Proof.
  destruct (get_logging_params_drains Checkpoint.Net unit unit Checkpoint.Attr
              Checkpoint.safe_mean Checkpoint.trained) as [Hok _].
  destruct (Hok [3] [4; 2] [5]) as (report & self' & Hrun & _ & Hvl & _ & _ & _ & _ & Hrw & _).
  - simpl. by rewrite !lookup_insert_ne, lookup_insert_eq by done.
  - simpl. by rewrite lookup_insert_ne, lookup_insert_eq by done.
  - simpl. by rewrite lookup_insert_eq.
  - exists report, self'. split; [exact Hrun|]. split; [exact Hvl|exact Hrw].
Defined.

Section Checkpoints.

Variables Net Opt Rng Attr SD : Type.
Variable state_dict : Net -> SD.
Variable load_state_dict : A2CMore.pyval Attr SD -> M Net unit.

Abbreviation Agent := (A2CMore.Agent Net Opt Rng Attr).
Abbreviation get_hyperparams := (A2CMore.get_hyperparams Net Opt Rng Attr SD state_dict).
Abbreviation load_weights := (A2CMore.load_weights Net Opt Rng Attr SD load_state_dict).
Abbreviation base := (A2CMore.base Net Opt Rng Attr).
Abbreviation rewards := (A2CMore.rewards Net Opt Rng Attr).
Abbreviation attrs := (A2CMore.attrs Net Opt Rng Attr).
Abbreviation actor := (fun self : Agent => fst (A2C.ac _ _ _ (base self))).
Abbreviation critic := (fun self : Agent => snd (A2C.ac _ _ _ (base self))).

(** What [get_hyperparams] returns when it returns. *)
Lemma get_hyperparams_Some (self : Agent) h :
  get_hyperparams self = Some h ->
  h !! "policy_weights"%string = Some (A2CMore.PyWeights Attr SD (state_dict (actor self))) /\
  h !! "value_weights"%string = Some (A2CMore.PyWeights Attr SD (state_dict (critic self))) /\
  (forall key, key ∈ ["network_type"; "batch_size"; "gamma"; "lr_actor";
                      "lr_critic"; "rollout_size"]%string ->
     h !! key = A2CMore.PyAttr Attr SD <$> attrs self !! key) /\
  dom h = list_to_set ["network_type"; "batch_size"; "gamma"; "lr_actor"; "lr_critic";
                       "rollout_size"; "policy_weights"; "value_weights"]%string.
Proof.
  unfold A2CMore.get_hyperparams.
  destruct (attrs self !! "network_type"%string) as [a1|] eqn:H1; [|done].
  destruct (attrs self !! "batch_size"%string) as [a2|] eqn:H2; [|done].
  destruct (attrs self !! "gamma"%string) as [a3|] eqn:H3; [|done].
  destruct (attrs self !! "lr_actor"%string) as [a4|] eqn:H4; [|done].
  destruct (attrs self !! "lr_critic"%string) as [a5|] eqn:H5; [|done].
  destruct (attrs self !! "rollout_size"%string) as [a6|] eqn:H6; [|done].
  simpl. intros [= <-].
  split; [by rewrite lookup_insert_ne, lookup_insert_eq by done|].
  split; [by rewrite lookup_insert_eq|].
  split.
  - intros key Hkey.
    repeat (apply elem_of_cons in Hkey as [->|Hkey]);
      [..|by apply elem_of_nil in Hkey];
      rewrite ?lookup_insert_ne, lookup_insert_eq by done;
      by rewrite ?H1, ?H2, ?H3, ?H4, ?H5, ?H6.
  - rewrite !dom_insert_L, dom_empty_L. simpl. set_solver.
Qed.

(** [get_hyperparams] returns exactly when the agent has the six
    attributes it reads ([network_type], [batch_size], [gamma],
    [lr_actor], [lr_critic], [rollout_size]) and raises [AttributeError]
    otherwise.  The dictionary it returns has these six keys, holding the
    attributes, and the keys [policy_weights] and [value_weights], holding
    the state dicts of the actor and of the critic. *)
Theorem get_hyperparams_outcomes (self : Agent) :
  (is_Some (get_hyperparams self) <->
   forall key, key ∈ ["network_type"; "batch_size"; "gamma"; "lr_actor";
                      "lr_critic"; "rollout_size"]%string ->
     is_Some (attrs self !! key)) /\
  (forall h, get_hyperparams self = Some h ->
     h !! "policy_weights"%string
       = Some (A2CMore.PyWeights Attr SD (state_dict (actor self))) /\
     h !! "value_weights"%string
       = Some (A2CMore.PyWeights Attr SD (state_dict (critic self))) /\
     (forall key, key ∈ ["network_type"; "batch_size"; "gamma"; "lr_actor";
                         "lr_critic"; "rollout_size"]%string ->
        h !! key = A2CMore.PyAttr Attr SD <$> attrs self !! key) /\
     dom h = list_to_set ["network_type"; "batch_size"; "gamma"; "lr_actor"; "lr_critic";
                          "rollout_size"; "policy_weights"; "value_weights"]%string).
Proof.
  split; [|apply get_hyperparams_Some].
  split.
  - intros [h Hh] key Hkey.
    destruct (get_hyperparams_Some self h Hh) as (_ & _ & Hattr & _).
    specialize (Hattr key Hkey).
    destruct (attrs self !! key) as [a|] eqn:Ha; [by eexists|].
    exfalso. revert Hh Ha. unfold A2CMore.get_hyperparams.
    repeat (apply elem_of_cons in Hkey as [->|Hkey]);
      [..|by apply elem_of_nil in Hkey];
      intros Hh Ha; rewrite ?Ha in Hh;
      repeat (match type of Hh with
              | context [attrs self !! ?k] => destruct (attrs self !! k); simpl in Hh
              end); done.
  - intros Hall. unfold A2CMore.get_hyperparams.
    destruct (Hall "network_type"%string) as [a1 ->]; [set_solver|].
    destruct (Hall "batch_size"%string) as [a2 ->]; [set_solver|].
    destruct (Hall "gamma"%string) as [a3 ->]; [set_solver|].
    destruct (Hall "lr_actor"%string) as [a4 ->]; [set_solver|].
    destruct (Hall "lr_critic"%string) as [a5 ->]; [set_solver|].
    destruct (Hall "rollout_size"%string) as [a6 ->]; [set_solver|].
    simpl. by eexists.
Qed.

Lemma load_weights_run (self : Agent) weights pw vw actor' critic' :
  weights !! "policy_weights"%string = Some pw ->
  weights !! "value_weights"%string = Some vw ->
  load_state_dict pw (actor self) = Ok tt actor' ->
  load_state_dict vw (critic self) = Ok tt critic' ->
  load_weights weights self
  = Ok tt (A2CMore.set_base _ _ _ _
             (A2CMore.set_ac _ _ _ (actor', critic') (base self)) self).
Proof.
  intros Hpw Hvw Ha Hc.
  unfold A2CMore.load_weights, A2CMore.on_actor, A2CMore.on_critic, bind, ret.
  rewrite Hpw. simpl. rewrite Ha. simpl. rewrite Hvw. simpl. rewrite Hc. done.
Qed.

(** Round trip of a checkpoint.  If [get_hyperparams] returns on one
    agent, and the target's actor and critic accept the state dicts of
    the source's (torch loads them and the module then equals the one the
    state dict came from), then [load_weights] of that dictionary on the
    target returns and leaves the target with the source's actor and
    critic; the target's optimizers, logs, rewards and attributes are
    untouched. *)
Theorem checkpoint_round_trip (source target : Agent) h :
  get_hyperparams source = Some h ->
  load_state_dict (A2CMore.PyWeights Attr SD (state_dict (actor source))) (actor target)
    = Ok tt (actor source) ->
  load_state_dict (A2CMore.PyWeights Attr SD (state_dict (critic source))) (critic target)
    = Ok tt (critic source) ->
  exists target',
    load_weights h target = Ok tt target' /\
    A2C.ac _ _ _ (base target') = A2C.ac _ _ _ (base source) /\
    A2C.optimizer_policy _ _ _ (base target') = A2C.optimizer_policy _ _ _ (base target) /\
    A2C.optimizer_value _ _ _ (base target') = A2C.optimizer_value _ _ _ (base target) /\
    A2C.logs _ _ _ (base target') = A2C.logs _ _ _ (base target) /\
    rewards target' = rewards target /\
    attrs target' = attrs target.
Proof.
  intros Hh Ha Hc.
  destruct (get_hyperparams_Some source h Hh) as (Hpw & Hvw & _).
  rewrite (load_weights_run target h _ _ _ _ Hpw Hvw Ha Hc).
  eexists. split; [reflexivity|]. simpl.
  split; [by destruct (A2C.ac _ _ _ (base source))|]. done.
Qed.

(** [load_weights] and dictionaries that are no checkpoint.  Without the
    key [policy_weights] it raises [KeyError] and the agent is as before.
    With that key but without [value_weights] it raises [KeyError] after
    the actor has been loaded: the actor is the new one, the critic the
    old one.  If loading the actor raises, the exception is passed on and
    the critic is not touched. *)
Theorem load_weights_failures (self : Agent) weights :
  (weights !! "policy_weights"%string = None ->
   load_weights weights self = Raise KeyError self) /\
  (forall pw actor',
     weights !! "policy_weights"%string = Some pw ->
     load_state_dict pw (actor self) = Ok tt actor' ->
     weights !! "value_weights"%string = None ->
     exists self',
       load_weights weights self = Raise KeyError self' /\
       actor self' = actor' /\ critic self' = critic self) /\
  (forall pw e actor',
     weights !! "policy_weights"%string = Some pw ->
     load_state_dict pw (actor self) = Raise e actor' ->
     exists self',
       load_weights weights self = Raise e self' /\
       actor self' = actor' /\ critic self' = critic self).
Proof.
  unfold A2CMore.load_weights, A2CMore.on_actor, A2CMore.on_critic, bind, ret.
  split; [intros ->; done|]. split.
  - intros pw actor' -> Ha Hvw. simpl. rewrite Ha. simpl. rewrite Hvw. simpl.
    by eexists.
  - intros pw e actor' -> Ha. simpl. rewrite Ha. simpl. by eexists.
Qed.

End Checkpoints.

Lemma trained_attributes key :
  key ∈ ["network_type"; "batch_size"; "gamma"; "lr_actor";
         "lr_critic"; "rollout_size"]%string ->
  is_Some (A2CMore.attrs _ _ _ _ Checkpoint.trained !! key).
Proof.
  intros Hkey. unfold Checkpoint.trained, Checkpoint.hyper. simpl.
  repeat (apply elem_of_cons in Hkey as [->|Hkey]);
    [..|by apply elem_of_nil in Hkey];
    rewrite ?lookup_insert_ne, lookup_insert_eq by done; by eexists.
Qed.

Lemma get_hyperparams_outcomes_witness :
  exists h,
    A2CMore.get_hyperparams Checkpoint.Net unit unit Checkpoint.Attr Checkpoint.SD
      Checkpoint.state_dict Checkpoint.trained = Some h /\
    h !! "policy_weights"%string = Some (A2CMore.PyWeights _ _ [1; 2]).
Proof.
  destruct (get_hyperparams_outcomes Checkpoint.Net unit unit Checkpoint.Attr Checkpoint.SD
              Checkpoint.state_dict Checkpoint.trained) as [Hiff Hkeys].
  destruct (proj2 Hiff trained_attributes) as [h Hh].
  exists h. split; [exact Hh|]. exact (proj1 (Hkeys h Hh)).
Defined.

Lemma trained_hyperparams :
  exists h,
    A2CMore.get_hyperparams Checkpoint.Net unit unit Checkpoint.Attr Checkpoint.SD
      Checkpoint.state_dict Checkpoint.trained = Some h.
Proof.
  unfold A2CMore.get_hyperparams.
  destruct (trained_attributes "network_type"%string) as [a1 ->]; [set_solver|].
  destruct (trained_attributes "batch_size"%string) as [a2 ->]; [set_solver|].
  destruct (trained_attributes "gamma"%string) as [a3 ->]; [set_solver|].
  destruct (trained_attributes "lr_actor"%string) as [a4 ->]; [set_solver|].
  destruct (trained_attributes "lr_critic"%string) as [a5 ->]; [set_solver|].
  destruct (trained_attributes "rollout_size"%string) as [a6 ->]; [set_solver|].
  simpl. by eexists.
Qed.

Lemma checkpoint_round_trip_witness :
  exists h target',
    A2CMore.get_hyperparams Checkpoint.Net unit unit Checkpoint.Attr Checkpoint.SD
      Checkpoint.state_dict Checkpoint.trained = Some h /\
    A2CMore.load_weights Checkpoint.Net unit unit Checkpoint.Attr Checkpoint.SD
      Checkpoint.load_state_dict h Checkpoint.untrained = Ok tt target' /\
    A2C.ac _ _ _ (A2CMore.base _ _ _ _ target') = ([1; 2], [3]).
Proof.
  destruct trained_hyperparams as (h & Hh).
  destruct (checkpoint_round_trip Checkpoint.Net unit unit Checkpoint.Attr Checkpoint.SD
              Checkpoint.state_dict Checkpoint.load_state_dict
              Checkpoint.trained Checkpoint.untrained h Hh)
    as (target' & Hrun & Hac & _); [reflexivity|reflexivity|].
  exists h, target'. split; [exact Hh|]. split; [exact Hrun|exact Hac].
Defined.

Lemma load_weights_failures_witness :
  (∅ : gmap string (A2CMore.pyval Checkpoint.Attr Checkpoint.SD)) !! "policy_weights"%string
    = None /\
  A2CMore.load_weights Checkpoint.Net unit unit Checkpoint.Attr Checkpoint.SD
    Checkpoint.load_state_dict ∅ Checkpoint.untrained
  = Raise KeyError Checkpoint.untrained.
Proof.
  split; [apply lookup_empty|].
  apply (load_weights_failures Checkpoint.Net unit unit Checkpoint.Attr Checkpoint.SD
           Checkpoint.load_state_dict Checkpoint.untrained ∅).
  apply lookup_empty.
Defined.

Lemma update_policy_returns_witness :
  exists self',
    A2C.update_policy Coin.Obs Coin.Act Coin.Dist Coin.Params Coin.Opt Coin.Rng
      Coin.actor_forward Coin.critic_forward Coin.dist_sample Coin.dist_mode
      Coin.dist_log_prob (fun a => a) Coin.no_step Coin.no_step
      [Coin.minibatch; Coin.minibatch] Coin.agent_with_logs = Ok tt self' /\
    logs_filled Coin.Params Coin.Opt Coin.Rng 2 self'.
Proof.
  apply (update_policy_returns Coin.Obs Coin.Act Coin.Dist Coin.Params Coin.Opt Coin.Rng
           Coin.actor_forward Coin.critic_forward Coin.dist_sample Coin.dist_mode
           Coin.dist_log_prob (fun a => a) Coin.no_step Coin.no_step
           Coin.agent_with_logs [Coin.minibatch; Coin.minibatch] 0).
  - repeat constructor; apply coin_minibatch_ok.
  - apply empty_logs_filled.
Defined.
